(** * boilerplate-node: account registration backend

    A shallow embedding of the Express application ([app.js]), of the
    [POST /accounts] route ([accountsReg]) and of the database bootstrap
    ([core/mongoose.js]), with the properties the specification states about
    them. *)

From Stdlib Require Import String Ascii List NArith ZArith Bool Lia Wf_nat.
Import ListNotations.
Open Scope string_scope.

(** ** JavaScript values

    Request fields and error properties may be absent ([undefined]); they are
    [option] values.  The operators [&&], [||] and [if (x)] look at the
    truthiness of their operand. *)

Module Js.

(** A string is truthy unless it is empty. *)
Definition truthy_string (s : string) : bool := negb (s =? "").

(** [undefined] is falsy; a present string is truthy unless empty. *)
Definition truthy (v : option string) : bool :=
  match v with
  | Some s => truthy_string s
  | None => false
  end.

(** An array, even an empty one, is an object and so is truthy. *)
Definition truthy_array {A : Type} (v : option (list A)) : bool :=
  match v with
  | Some _ => true
  | None => false
  end.

(** [a || b] on strings, the right operand being a string. *)
Definition or_else (a : option string) (b : string) : string :=
  match a with
  | Some s => if truthy_string s then s else b
  | None => b
  end.

(** Interpolation [`${v}`] of a string-or-undefined value. *)
Definition interpolate (v : option string) : string :=
  match v with
  | Some s => s
  | None => "undefined"
  end.

(** Strict equality [a === b] on string-or-undefined values. *)
Definition strict_eq (a b : option string) : bool :=
  match a, b with
  | Some x, Some y => x =? y
  | None, None => true
  | _, _ => false
  end.

End Js.

(** ** Errors and the response envelope *)

(** One entry of a field-level error list: [{param, msg}]. *)
Record FieldError : Type := mkFieldError {
  fe_param : string;
  fe_msg : string
}.

(** The properties of a thrown value that the application reads.  [name]
    stands for whatever else identifies the error object. *)
Record jsError : Type := mkError {
  name : string;
  message : option string;
  api_status : option Z;
  api_code : option string;
  locale_tag : option string;
  errors : option (list FieldError)
}.

(** The object literal sent by the error handler.  A [None] in
    [env_errors] is an object without the [errors] key. *)
Record Envelope : Type := mkEnvelope {
  env_error : string;
  env_error_code : option string;
  env_errors : option (list FieldError)
}.

(** ** Documents and the request body *)

(** [req.body] of [POST /accounts]. *)
Module Params.
Record t : Type := mk {
  first_name : option string;
  last_name : option string;
  contact_phone : option string;
  email : option string;
  password : option string;
  cnf_password : option string
}.
End Params.

(** The credential stored with an account: [{hash, salt}]. *)
Record Credential : Type := mkCredential {
  hash : string;
  salt : string
}.

(** Argument of [db.accounts.create] and the document it yields. *)
Module Account.
Record input : Type := mkInput {
  email : option string;
  password : Credential
}.
Record doc : Type := mkDoc {
  id : string;
  fields : input
}.
End Account.

(** Argument of [db.profile.create] and the document it yields. *)
Module Profile.
Record names : Type := mkNames {
  first_name : option string;
  last_name : option string
}.
Record contact_info : Type := mkContact {
  phone : option string
}.
Record input : Type := mkInput {
  account_id : string;
  profile : names;
  contact : contact_info
}.
Record doc : Type := mkDoc {
  id : string;
  fields : input
}.
End Profile.

(** The success payload [{account, profile}]. *)
Record Registered : Type := mkRegistered {
  account : Account.doc;
  profile : Profile.doc
}.

(** What a middleware does to the response and to the pipeline, in the
    order in which it does it. *)
Inductive ResEffect : Type :=
| res_status (code : option Z)
| res_send (obj : Envelope)
| res_json (payload : Registered)
| next (err : option jsError).

(** ** The error handler of [app.js] *)

Section ErrorHandler.

(** [Error.isHandled] of the helpers module. *)
Variable Error_isHandled : jsError -> bool.
(** [DbUtils.checkConnectionErr] of the mongoose module. *)
Variable DbUtils_checkConnectionErr : jsError -> bool.
(** [res.__], the translation for the locale of the request. *)
Variable res__ : string -> string.

(** [app.use((err, req, res, next) => ...)]. *)
Definition errorHandler (err : jsError) : list ResEffect :=
  if Error_isHandled err then
    let obj :=
      {| env_error :=
           Js.or_else (message err)
             (res__ ("DEFAULT_ERRORS." ++ Js.interpolate (locale_tag err)));
         env_error_code := api_code err;
         env_errors := None |} in
    let obj :=
      if Js.truthy_array (errors err)
      then {| env_error := env_error obj;
              env_error_code := env_error_code obj;
              env_errors := errors err |}
      else obj in
    [res_status (api_status err); res_send obj]
  else if DbUtils_checkConnectionErr err then
    [res_status (Some 503%Z);
     res_send {| env_error := res__ "DEFAULT_ERRORS.TEMPORARILY_UNAVAILABLE";
                 env_error_code := Some "temporarily_unavailable";
                 env_errors := None |}]
  else
    [res_status (Some 500%Z);
     res_send {| env_error := res__ "DEFAULT_ERRORS.SERVER_ERROR";
                 env_error_code := Some "server_error";
                 env_errors := None |};
     next (Some err)].

(** The three categories the handler tells apart, in the order of its
    tests. *)
Inductive Category : Type := Handled | Connectivity | Unclassified.

Definition classify (err : jsError) : Category :=
  if Error_isHandled err then Handled
  else if DbUtils_checkConnectionErr err then Connectivity
  else Unclassified.

End ErrorHandler.

(** ** Asynchronous code over the injected modules

    A handler runs against the modules injected into [res.locals]: the
    database models and the accounts helper.  What they do is not decided by
    the handler, so they are operations on a world [W] that is threaded
    through the calls; every call is also recorded, in order. *)

(** How an awaited call ends: with a value, or by throwing (a rejected
    promise that is awaited throws). *)
Inductive Completion (A : Type) : Type :=
| Normal (a : A)
| Throw (e : jsError).
Arguments Normal {A} a.
Arguments Throw {A} e.

(** How a promise is settled by its executor. *)
Inductive Settled (A : Type) : Type :=
| Resolved (a : A)
| Rejected (e : jsError).
Arguments Resolved {A} a.
Arguments Rejected {A} e.

(** The modules of [res.locals] that the controller uses. *)
Record Locals (W : Type) : Type := mkLocals {
  db_accounts_findOne : option string -> W -> Completion (option Account.doc) * W;
  db_accounts_create : Account.input -> W -> Completion Account.doc * W;
  db_profile_create : Profile.input -> W -> Completion Profile.doc * W;
  accounts_initPasswordHash : option string -> W -> Completion Credential * W
}.
Arguments db_accounts_findOne {W} _ _ _.
Arguments db_accounts_create {W} _ _ _.
Arguments db_profile_create {W} _ _ _.
Arguments accounts_initPasswordHash {W} _ _ _.

(** A call made to an injected module. *)
Inductive Call : Type :=
| call_findOne (query_email : option string)
| call_accounts_create (d : Account.input)
| call_profile_create (d : Profile.input)
| call_initPasswordHash (plaintext : option string).

(** The calls that write to the database. *)
Definition is_write (c : Call) : bool :=
  match c with
  | call_accounts_create _ | call_profile_create _ => true
  | call_findOne _ | call_initPasswordHash _ => false
  end.

Definition writes (cs : list Call) : list Call := filter is_write cs.

(** The state a handler runs in: the world and the calls made so far. *)
Record Run (W : Type) : Type := mkRun {
  world : W;
  calls : list Call
}.
Arguments mkRun {W} world calls.
Arguments world {W} r.
Arguments calls {W} r.

Definition Async (W A : Type) : Type := Run W -> Completion A * Run W.

Definition ret {W A : Type} (a : A) : Async W A :=
  fun s => (Normal a, s).

Definition bind {W A B : Type} (m : Async W A) (k : A -> Async W B) : Async W B :=
  fun s =>
    match m s with
    | (Normal a, s') => k a s'
    | (Throw e, s') => (Throw e, s')
    end.

Notation "x <- m ;; k" := (bind m (fun x => k))
  (at level 61, m at next level, right associativity).

(** [try { body } catch (e) { handler(e) }]. *)
Definition try_catch {W A : Type} (body : Async W A) (handler : jsError -> Async W A)
  : Async W A :=
  fun s =>
    match body s with
    | (Normal a, s') => (Normal a, s')
    | (Throw e, s') => handler e s'
    end.

(** A call to an operation of [res.locals], recorded as [c]. *)
Definition invoke {W A : Type} (c : Call) (op : W -> Completion A * W) : Async W A :=
  fun s =>
    let (r, w') := op (world s) in
    (r, {| world := w'; calls := (calls s ++ [c])%list |}).

(** ** The controller of [accountsReg] *)

Section Controller.

Context {W : Type}.
(** [res.locals]. *)
Variable locals : Locals W.
(** [Error.ValidationError] of the helpers module. *)
Variable Error_ValidationError : list FieldError -> jsError.
(** [res.__]. *)
Variable res__ : string -> string.

(** The executor handed to [new Promise]: the body of its [try] settles the
    promise, and whatever is thrown inside is caught and rejects it. *)
Definition registration (params : Params.t) : Async W (Settled Registered) :=
  try_catch
    (existingAcc <- invoke (call_findOne (Params.email params))
                      (db_accounts_findOne locals (Params.email params)) ;;
     match existingAcc with
     | Some _ =>
         ret (Rejected (Error_ValidationError
                [{| fe_param := "email";
                    fe_msg := res__ "VAL_ERRORS.USR_ACC_NEW_EMAIL_EXISTS" |}]))
     | None =>
         cred <- invoke (call_initPasswordHash (Params.password params))
                   (accounts_initPasswordHash locals (Params.password params)) ;;
         let new_account :=
           {| Account.email := Params.email params;
              Account.password := {| hash := hash cred; salt := salt cred |} |} in
         account <- invoke (call_accounts_create new_account)
                      (db_accounts_create locals new_account) ;;
         let new_profile :=
           {| Profile.account_id := Account.id account;
              Profile.profile :=
                {| Profile.first_name := Params.first_name params;
                   Profile.last_name := Params.last_name params |};
              Profile.contact :=
                {| Profile.phone := Params.contact_phone params |} |} in
         profile <- invoke (call_profile_create new_profile)
                      (db_profile_create locals new_profile) ;;
         ret (Resolved {| account := account; profile := profile |})
     end)
    (fun e => ret (Rejected e)).

(** [.asCallback((err, response) => ...)]. *)
Definition asCallback (p : Settled Registered) : list ResEffect :=
  match p with
  | Rejected err => [next (Some err)]
  | Resolved response => [res_json response]
  end.

(** The controller: [(req, res, next) => ...] with [params = req.body]. *)
Definition controller (params : Params.t) : Async W (list ResEffect) :=
  p <- registration params ;;
  ret (asCallback p).

End Controller.

(** Modelled from the spec: the helper [initPasswordHash], whose source is
    not part of the files at hand, derives a hash that is never the
    plaintext it was given. *)
Definition hash_differs_from_plaintext {W : Type} (locals : Locals W) : Prop :=
  forall (pw : option string) (w w' : W) (cred : Credential),
    accounts_initPasswordHash locals pw w = (Normal cred, w') ->
    Some (hash cred) <> pw.

(** The two object literals of the controller, as functions of what they are
    built from. *)

(** The document the controller asks [db.accounts] to create. *)
Definition account_input (params : Params.t) (cred : Credential) : Account.input :=
  {| Account.email := Params.email params; Account.password := cred |}.

(** The document the controller asks [db.profile] to create. *)
Definition profile_input (params : Params.t) (account : Account.doc) : Profile.input :=
  {| Profile.account_id := Account.id account;
     Profile.profile :=
       {| Profile.first_name := Params.first_name params;
          Profile.last_name := Params.last_name params |};
     Profile.contact := {| Profile.phone := Params.contact_phone params |} |}.

(** ** The validation schema of [accountsReg] *)

(** A string holds the bytes of the UTF-8 form of the JavaScript string, as
    the body of the request carries it.  White space is what [\s] matches:
    the six characters of one byte (tab, line feed, vertical tab, form feed,
    carriage return, space), U+00A0 in two bytes, and in three bytes U+1680,
    U+2000 to U+200A, U+2028, U+2029, U+202F, U+205F, U+3000 and U+FEFF. *)
Definition space1 (a : ascii) : bool :=
  let n := N_of_ascii a in
  (((9 <=? n) && (n <=? 13)) || (n =? 32))%N.

Definition space2 (a b : ascii) : bool :=
  ((N_of_ascii a =? 194) && (N_of_ascii b =? 160))%N.

Definition space3 (a b c : ascii) : bool :=
  let x := N_of_ascii a in
  let y := N_of_ascii b in
  let z := N_of_ascii c in
  (((x =? 225) && (y =? 154) && (z =? 128))
   || ((x =? 226) && (y =? 128)
       && (((128 <=? z) && (z <=? 138)) || (z =? 168) || (z =? 169) || (z =? 175)))
   || ((x =? 226) && (y =? 129) && (z =? 159))
   || ((x =? 227) && (y =? 128) && (z =? 128))
   || ((x =? 239) && (y =? 187) && (z =? 191)))%N.

(** What follows the white-space character a string starts with, when it
    starts with one. *)
Definition after_space (s : string) : option string :=
  match s with
  | EmptyString => None
  | String a r1 =>
      if space1 a then Some r1
      else
        match r1 with
        | EmptyString => None
        | String b r2 =>
            if space2 a b then Some r2
            else
              match r2 with
              | EmptyString => None
              | String c r3 => if space3 a b c then Some r3 else None
              end
        end
  end.

(** [str.replace(/^\s+/g, '')]: the white space a string starts with is
    dropped, character by character. *)
Fixpoint ltrim (s : string) : string :=
  match s with
  | EmptyString => EmptyString
  | String a r1 =>
      if space1 a then ltrim r1
      else
        match r1 with
        | EmptyString => s
        | String b r2 =>
            if space2 a b then ltrim r2
            else
              match r2 with
              | EmptyString => s
              | String c r3 => if space3 a b c then ltrim r3 else s
              end
        end
  end.

(** A string made of white space only (the empty string is one). *)
Definition blank (s : string) : bool :=
  match ltrim s with
  | EmptyString => true
  | String _ _ => false
  end.

(** [str.replace(/\s+$/g, '')]: the string is kept up to the point from
    which only white space is left. *)
Fixpoint rtrim (s : string) : string :=
  match s with
  | EmptyString => EmptyString
  | String a r => if blank s then EmptyString else String a (rtrim r)
  end.

(** The [trim] sanitizer. *)
Definition trim (s : string) : string := rtrim (ltrim s).

(** The white-space characters of more than one byte. *)
Definition utf8 (bytes : list nat) : string :=
  string_of_list_ascii (map ascii_of_nat bytes).

Definition wide_spaces : list string :=
  [ utf8 [194; 160]; utf8 [225; 154; 128];
    utf8 [226; 128; 128]; utf8 [226; 128; 129]; utf8 [226; 128; 130];
    utf8 [226; 128; 131]; utf8 [226; 128; 132]; utf8 [226; 128; 133];
    utf8 [226; 128; 134]; utf8 [226; 128; 135]; utf8 [226; 128; 136];
    utf8 [226; 128; 137]; utf8 [226; 128; 138];
    utf8 [226; 128; 168]; utf8 [226; 128; 169]; utf8 [226; 128; 175];
    utf8 [226; 129; 159]; utf8 [227; 128; 128]; utf8 [239; 187; 191] ].

(** The standard validators are handed the value as a string; an absent
    value reads as the empty string. *)
Definition toString (v : option string) : string :=
  match v with
  | Some s => s
  | None => ""
  end.

Definition isEmpty (s : string) : bool := s =? "".

(** The body fields the schema names. *)
Inductive Field : Type :=
| f_first_name | f_last_name | f_contact_phone | f_email | f_password | f_cnf_password.

Definition field_name (f : Field) : string :=
  match f with
  | f_first_name => "first_name"
  | f_last_name => "last_name"
  | f_contact_phone => "contact_phone"
  | f_email => "email"
  | f_password => "password"
  | f_cnf_password => "cnf_password"
  end.

(** [req.body[f]]. *)
Definition get_field (f : Field) (body : Params.t) : option string :=
  match f with
  | f_first_name => Params.first_name body
  | f_last_name => Params.last_name body
  | f_contact_phone => Params.contact_phone body
  | f_email => Params.email body
  | f_password => Params.password body
  | f_cnf_password => Params.cnf_password body
  end.

(** [req.body[f] = v]. *)
Definition set_field (f : Field) (v : option string) (body : Params.t) : Params.t :=
  match f with
  | f_first_name =>
      Params.mk v (Params.last_name body) (Params.contact_phone body)
        (Params.email body) (Params.password body) (Params.cnf_password body)
  | f_last_name =>
      Params.mk (Params.first_name body) v (Params.contact_phone body)
        (Params.email body) (Params.password body) (Params.cnf_password body)
  | f_contact_phone =>
      Params.mk (Params.first_name body) (Params.last_name body) v
        (Params.email body) (Params.password body) (Params.cnf_password body)
  | f_email =>
      Params.mk (Params.first_name body) (Params.last_name body)
        (Params.contact_phone body) v (Params.password body) (Params.cnf_password body)
  | f_password =>
      Params.mk (Params.first_name body) (Params.last_name body)
        (Params.contact_phone body) (Params.email body) v (Params.cnf_password body)
  | f_cnf_password =>
      Params.mk (Params.first_name body) (Params.last_name body)
        (Params.contact_phone body) (Params.email body) (Params.password body) v
  end.

(** The validators the schema uses.  A custom validator is given the value
    and the request, of which it reads the body. *)
Inductive Validator : Type :=
| v_isEmpty
| v_isInt
| v_isEmail
| v_custom (options : option string -> Params.t -> bool).

(** One validator entry of a field: [{negated, options, errorMessage}], the
    message being the key that [errorMessage] hands to [req.__]. *)
Record ValidatorCfg : Type := mkValidatorCfg {
  validator : Validator;
  negated : bool;
  errorMessage : string
}.

(** One field of the schema. *)
Record FieldSchema : Type := mkFieldSchema {
  field : Field;
  optional : bool;
  trimmed : bool;
  validators : list ValidatorCfg
}.

(** The custom validator of [cnf_password]:
    [password && password === value] with [password] read from [req.body];
    the validator passes when the result is truthy. *)
Definition cnf_password_custom (value : option string) (body : Params.t) : bool :=
  let password := Params.password body in
  Js.truthy password && Js.strict_eq password value.

(** The object handed to [checkSchema], field by field in source order. *)
Definition first_name_schema : FieldSchema :=
  {| field := f_first_name; optional := false; trimmed := true;
     validators :=
       [ {| validator := v_isEmpty; negated := true;
            errorMessage := "VAL_ERRORS.USR_ACC_NEW_MISSING_F_NAME" |} ] |}.

Definition last_name_schema : FieldSchema :=
  {| field := f_last_name; optional := true; trimmed := true;
     validators := [] |}.

Definition contact_phone_schema : FieldSchema :=
  {| field := f_contact_phone; optional := false; trimmed := true;
     validators :=
       [ {| validator := v_isEmpty; negated := true;
            errorMessage := "VAL_ERRORS.USR_ACC_NEW_MISSING_PHONE" |};
         {| validator := v_isInt; negated := false;
            errorMessage := "VAL_ERRORS.USR_ACC_NEW_INVALID_PHONE" |} ] |}.

Definition email_schema : FieldSchema :=
  {| field := f_email; optional := false; trimmed := true;
     validators :=
       [ {| validator := v_isEmpty; negated := true;
            errorMessage := "VAL_ERRORS.USR_ACC_NEW_MISSING_EMAIL" |};
         {| validator := v_isEmail; negated := false;
            errorMessage := "VAL_ERRORS.USR_ACC_NEW_INVALID_EMAIL" |} ] |}.

Definition password_schema : FieldSchema :=
  {| field := f_password; optional := false; trimmed := true;
     validators :=
       [ {| validator := v_isEmpty; negated := true;
            errorMessage := "VAL_ERRORS.USR_ACC_NEW_MISSING_PWD" |} ] |}.

Definition cnf_password_schema : FieldSchema :=
  {| field := f_cnf_password; optional := false; trimmed := true;
     validators :=
       [ {| validator := v_isEmpty; negated := true;
            errorMessage := "VAL_ERRORS.USR_ACC_NEW_MISSING_CNF_PWD" |};
         {| validator := v_custom cnf_password_custom; negated := false;
            errorMessage := "VAL_ERRORS.USR_ACC_NEW_CNF_PWD_MISMATCH" |} ] |}.

Definition schema : list FieldSchema :=
  [ first_name_schema; last_name_schema; contact_phone_schema; email_schema;
    password_schema; cnf_password_schema ].

Section Validation.

(** [req.__], the translation for the locale of the request. *)
Variable req__ : string -> string.
(** [isInt] and [isEmail] of the validator library. *)
Variables isInt isEmail : string -> bool.
(** Whether a chain writes the sanitized value back into [req.body], which
    releases of the validation library differ on. *)
Variable sanitizers_persist : bool.

(** The value a chain validates: sanitizers apply to strings only. *)
Definition sanitized (fs : FieldSchema) (body : Params.t) : option string :=
  if trimmed fs then option_map trim (get_field (field fs) body)
  else get_field (field fs) body.

(** Whether one validator rejects the value. *)
Definition rejects (cfg : ValidatorCfg) (value : option string) (body : Params.t) : bool :=
  let result :=
    match validator cfg with
    | v_isEmpty => isEmpty (toString value)
    | v_isInt => isInt (toString value)
    | v_isEmail => isEmail (toString value)
    | v_custom options => options value body
    end in
  if negated cfg then result else negb result.

(** The errors of one chain: every validator runs, and each one that rejects
    adds its own entry. *)
Definition chain_errors (fs : FieldSchema) (body : Params.t) : list FieldError :=
  map (fun cfg => {| fe_param := field_name (field fs);
                     fe_msg := req__ (errorMessage cfg) |})
      (filter (fun cfg => rejects cfg (sanitized fs body) body) (validators fs)).

(** An optional field that is absent is left alone. *)
Definition skipped (fs : FieldSchema) (body : Params.t) : bool :=
  optional fs &&
  match get_field (field fs) body with
  | None => true
  | Some _ => false
  end.

(** One chain as a middleware: it adds its errors to those of the request
    and leaves the body as the later middlewares see it. *)
Definition run_chain (st : Params.t * list FieldError) (fs : FieldSchema)
  : Params.t * list FieldError :=
  let (body, errs) := st in
  if skipped fs body then (body, errs)
  else
    (if sanitizers_persist then set_field (field fs) (sanitized fs body) body else body,
     (errs ++ chain_errors fs body)%list).

(** [checkSchema({...})]: the chains of the fields, run in order. *)
Definition checkSchema (body : Params.t) : Params.t * list FieldError :=
  fold_left run_chain schema (body, []).

(** The request as the chain of [cnf_password] finds it: after the chains of
    the five fields before it. *)
Definition before_cnf_password (body : Params.t) : Params.t * list FieldError :=
  fold_left run_chain
    [ first_name_schema; last_name_schema; contact_phone_schema; email_schema;
      password_schema ] (body, []).

(** The entry that the custom validator of [cnf_password] adds. *)
Definition cnf_mismatch : FieldError :=
  {| fe_param := "cnf_password";
     fe_msg := req__ "VAL_ERRORS.USR_ACC_NEW_CNF_PWD_MISMATCH" |}.

(** The entries of the two required-field validators of the passwords. *)
Definition password_missing : FieldError :=
  {| fe_param := "password";
     fe_msg := req__ "VAL_ERRORS.USR_ACC_NEW_MISSING_PWD" |}.

Definition cnf_password_missing : FieldError :=
  {| fe_param := "cnf_password";
     fe_msg := req__ "VAL_ERRORS.USR_ACC_NEW_MISSING_CNF_PWD" |}.

End Validation.

(** ** The route [accountsReg] *)

Section Route.

Context {W : Type}.
Variable locals : Locals W.
Variable Error_ValidationError : list FieldError -> jsError.
Variable i18n__ : string -> string.
Variables isInt isEmail : string -> bool.
Variable sanitizers_persist : bool.

(** Modelled from the spec: the interceptor [InputValidator()], whose source
    is not part of the files at hand.  On any violation it stops the pipeline
    with the structured list of field errors; otherwise the next middleware
    runs. *)
Definition InputValidator (errs : list FieldError) (continue : Async W (list ResEffect))
  : Async W (list ResEffect) :=
  match errs with
  | [] => continue
  | _ :: _ => ret [next (Some (Error_ValidationError errs))]
  end.

(** [exports.accountsReg]: schema, interceptor, controller. *)
Definition accountsReg (body : Params.t) : Async W (list ResEffect) :=
  let (body', errs) := checkSchema i18n__ isInt isEmail sanitizers_persist body in
  InputValidator errs (controller locals Error_ValidationError i18n__ body').

End Route.

(** ** The connection bootstrap of [core/mongoose.js] *)

Module Mongoose.

(** A line handed to the logger. *)
Inductive LogEntry : Type :=
| Logger_info (msg : string)
| Logger_info_args (msg : string) (args : list string)
| Logger_error (msg : string) (err : option jsError).

(** How a listener ends: it returns, or it throws a value. *)
Inductive ListenerEnd : Type :=
| returns
| throws (thrown : option jsError).

(** A listener, given the argument of the event (if any). *)
Definition Listener : Type := option jsError -> list LogEntry * ListenerEnd.

Inductive Tries : Type :=
| tries (n : nat)
| Number_MAX_VALUE.

(** A promise implementation handed to the driver. *)
Inductive PromiseLibrary : Type :=
| global_Promise
| other_promise_library (name : string).

(** The options object of [mongoose.connect]. *)
Record ConnectOptions : Type := mkConnectOptions {
  autoIndex : bool;
  autoReconnect : bool;
  reconnectTries : Tries;
  reconnectInterval : nat;
  bufferMaxEntries : nat;
  useNewUrlParser : bool;
  promiseLibrary : PromiseLibrary
}.

(** What the bootstrap touches of the [mongoose] singleton. *)
Record t : Type := mk {
  listeners : list (string * Listener);
  debug : option (list string -> list LogEntry);
  bufferCommands : bool;
  connected_to : option (option string * ConnectOptions)
}.

(** The singleton before the bootstrap runs; commands are buffered by
    default. *)
Definition fresh : t :=
  {| listeners := []; debug := None; bufferCommands := true; connected_to := None |}.

(** [mongoose.connection.on(event, listener)]. *)
Definition on (event : string) (l : Listener) (m : t) : t :=
  {| listeners := (listeners m ++ [(event, l)])%list;
     debug := debug m;
     bufferCommands := bufferCommands m;
     connected_to := connected_to m |}.

(** The four listeners of the bootstrap. *)
Definition on_connected : Listener :=
  fun _ => ([Logger_info "core.mongoose - connection - connected"], returns).

Definition on_disconnected : Listener :=
  fun _ => ([Logger_info "core.mongoose - connection - disconnected"], returns).

Definition on_reconnect : Listener :=
  fun _ => ([Logger_info "core.mongoose - connection - reconnect"], returns).

Definition on_error : Listener :=
  fun err => ([Logger_error "core.mongoose - connection - error - " err], throws err).

Section Bootstrap.

(** [config.get('mongoDb.uri')] and [config.get('mongoDb.debug') === true]. *)
Variable MONGO_DB_URI : option string.
Variable MONGO_DB_DEBUG : bool.
(** How [mongoose.connect] ends. *)
Variable connect : option string -> ConnectOptions -> Completion unit.

(** [module.exports = async () => ...]. *)
Definition bootstrap (m : t) : t * Completion unit :=
  if negb (Js.truthy MONGO_DB_URI) then (m, Normal tt)
  else
    let m := on "connected" on_connected m in
    let m := on "disconnected" on_disconnected m in
    let m := on "reconnect" on_reconnect m in
    let m := on "error" on_error m in
    let m :=
      {| listeners := listeners m;
         debug :=
           if MONGO_DB_DEBUG
           then Some (fun args => [Logger_info_args "core.mongoose - request - " args])
           else None;
         bufferCommands := bufferCommands m;
         connected_to := connected_to m |} in
    let m :=
      {| listeners := listeners m;
         debug := debug m;
         bufferCommands := false;
         connected_to := connected_to m |} in
    let options :=
      {| autoIndex := true;
         autoReconnect := true;
         reconnectTries := Number_MAX_VALUE;
         reconnectInterval := 500;
         bufferMaxEntries := 0;
         useNewUrlParser := true;
         promiseLibrary := global_Promise |} in
    match connect MONGO_DB_URI options with
    | Normal _ =>
        ({| listeners := listeners m;
            debug := debug m;
            bufferCommands := bufferCommands m;
            connected_to := Some (MONGO_DB_URI, options) |}, Normal tt)
    | Throw e => (m, Throw e)
    end.

End Bootstrap.

(** The listeners registered for an event, in registration order. *)
Definition listeners_of (event : string) (m : t) : list Listener :=
  map snd (filter (fun p => fst p =? event) (listeners m)).

(** The listeners are called one after the other; a listener that throws
    ends the emission, and what it threw escapes. *)
Fixpoint call_listeners (ls : list Listener) (arg : option jsError)
  : list LogEntry * ListenerEnd :=
  match ls with
  | [] => ([], returns)
  | l :: rest =>
      match l arg with
      | (logs, returns) =>
          let (logs', e) := call_listeners rest arg in ((logs ++ logs')%list, e)
      | (logs, throws v) => (logs, throws v)
      end
  end.

(** How an emission ends: as its listeners end, or, for an ['error'] event
    that nobody listens to, with the emitter itself throwing: the argument
    when it is an [Error], and otherwise a new error ([ERR_UNHANDLED_ERROR])
    that holds the argument. *)
Inductive Emission : Type :=
| ended (e : ListenerEnd)
| unhandled_error (payload : option jsError).

(** [connection.emit(event, arg)]. *)
Definition emit (event : string) (arg : option jsError) (m : t)
  : list LogEntry * Emission :=
  match listeners_of event m with
  | [] => if event =? "error" then ([], unhandled_error arg) else ([], ended returns)
  | ls => let (logs, e) := call_listeners ls arg in (logs, ended e)
  end.

(** The process: nothing in the program catches what escapes an emission,
    so an escaping exception ends the process, be it what a listener threw
    or what the emitter threw for an unhandled ['error'] event. *)
Inductive Process : Type :=
| running
| crashed (uncaught : option jsError)
| crashed_unhandled (payload : option jsError).

Definition after_emit (event : string) (arg : option jsError) (m : t)
  : list LogEntry * Process :=
  match emit event arg m with
  | (logs, ended returns) => (logs, running)
  | (logs, ended (throws v)) => (logs, crashed v)
  | (logs, unhandled_error payload) => (logs, crashed_unhandled payload)
  end.

End Mongoose.

(** ** An in-memory stand-in for the injected modules

    Two collections held in lists, identifiers drawn from a counter, a salt
    per call of the hashing helper, and a switch that makes the creation of
    profiles fail.  It serves to run the controller on concrete requests. *)

Module MemStore.

Record t : Type := mk {
  accounts : list Account.doc;
  profiles : list Profile.doc;
  issued : nat;
  profile_fault : option jsError
}.

Definition empty : t :=
  {| accounts := []; profiles := []; issued := 0; profile_fault := None |}.

(** An identifier or a salt: a tag followed by [n] marks. *)
Fixpoint marks (n : nat) : string :=
  match n with
  | O => ""
  | S k => String "i" (marks k)
  end.

Definition tick (w : t) : t :=
  {| accounts := accounts w; profiles := profiles w;
     issued := S (issued w); profile_fault := profile_fault w |}.

Definition findOne (q : option string) (w : t) : Completion (option Account.doc) * t :=
  (Normal (find (fun a => Js.strict_eq (Account.email (Account.fields a)) q) (accounts w)), w).

Definition create_account (d : Account.input) (w : t) : Completion Account.doc * t :=
  let a := {| Account.id := "a" ++ marks (issued w); Account.fields := d |} in
  (Normal a,
   {| accounts := (accounts w ++ [a])%list; profiles := profiles w;
      issued := S (issued w); profile_fault := profile_fault w |}).

Definition create_profile (d : Profile.input) (w : t) : Completion Profile.doc * t :=
  match profile_fault w with
  | Some e => (Throw e, w)
  | None =>
      let p := {| Profile.id := "p" ++ marks (issued w); Profile.fields := d |} in
      (Normal p,
       {| accounts := accounts w; profiles := (profiles w ++ [p])%list;
          issued := S (issued w); profile_fault := profile_fault w |})
  end.

(** A stand-in for the hashing helper: a fresh salt, and a digest that is
    longer than the plaintext. *)
Definition initPasswordHash (pw : option string) (w : t) : Completion Credential * t :=
  let s := "s" ++ marks (issued w) in
  (Normal {| hash := "#" ++ s ++ ":" ++ toString pw; salt := s |}, tick w).

Definition locals : Locals t :=
  {| db_accounts_findOne := findOne;
     db_accounts_create := create_account;
     db_profile_create := create_profile;
     accounts_initPasswordHash := initPasswordHash |}.

End MemStore.

(** ** Sample data *)

Module Sample.

(** The request of the concrete scenario of the specification. *)
Definition ana : Params.t :=
  {| Params.first_name := Some "Ana";
     Params.last_name := None;
     Params.contact_phone := Some "5551234";
     Params.email := Some "ana@example.com";
     Params.password := Some "secret1";
     Params.cnf_password := Some "secret1" |}.

(** The same request with a blank after the confirmation. *)
Definition ana_trailing_blank : Params.t :=
  set_field f_cnf_password (Some "secret1 ") ana.

(** A request whose two password fields are empty strings. *)
Definition ana_empty_passwords : Params.t :=
  set_field f_cnf_password (Some "") (set_field f_password (Some "") ana).

(** A stand-in for [Error.ValidationError]: status 400 with the list. *)
Definition ValidationError (errs : list FieldError) : jsError :=
  {| name := "ValidationError"; message := None; api_status := Some 400%Z;
     api_code := Some "validation_error"; locale_tag := Some "VALIDATION_ERROR";
     errors := Some errs |}.

(** An error as the driver raises it when the connection is down. *)
Definition connection_lost : jsError :=
  {| name := "MongoError"; message := Some "no connection available";
     api_status := None; api_code := None; locale_tag := None; errors := None |}.

(** A programming error. *)
Definition type_error : jsError :=
  {| name := "TypeError"; message := Some "x is not a function";
     api_status := None; api_code := None; locale_tag := None; errors := None |}.

Definition isHandled (e : jsError) : bool :=
  match api_status e with Some _ => true | None => false end.

Definition checkConnectionErr (e : jsError) : bool := name e =? "MongoError".

(** The identity translation: a key without an entry is returned as it is. *)
Definition i18n__ (key : string) : string := key.

(** Stand-ins for the library predicates that accept the sample values. *)
Definition isInt (s : string) : bool := s =? "5551234".
Definition isEmail (s : string) : bool := s =? "ana@example.com".

(** What the in-memory store returns for Ana on an empty store, and the
    store after her registration. *)
Definition ana_credential : Credential :=
  {| hash := "#s:secret1"; salt := "s" |}.

Definition ana_account : Account.doc :=
  {| Account.id := "ai"; Account.fields := account_input ana ana_credential |}.

Definition ana_profile : Profile.doc :=
  {| Profile.id := "pii"; Profile.fields := profile_input ana ana_account |}.

Definition after_ana : MemStore.t :=
  {| MemStore.accounts := [ana_account]; MemStore.profiles := [ana_profile];
     MemStore.issued := 3; MemStore.profile_fault := None |}.

(** A request whose confirmation is another password. *)
Definition ana_mismatch : Params.t :=
  set_field f_cnf_password (Some "secret2") ana.

(** A store that already holds an account for Ana. *)
Definition with_ana : MemStore.t :=
  {| MemStore.accounts :=
       [ {| Account.id := "a";
            Account.fields :=
              {| Account.email := Some "ana@example.com";
                 Account.password := {| hash := "#s:old"; salt := "s" |} |} |} ];
     MemStore.profiles := [];
     MemStore.issued := 1;
     MemStore.profile_fault := None |}.

(** An empty store on which the creation of a profile fails. *)
Definition profiles_down : MemStore.t :=
  {| MemStore.accounts := []; MemStore.profiles := []; MemStore.issued := 0;
     MemStore.profile_fault := Some connection_lost |}.

End Sample.

(** ** Express: from a middleware to the error handler *)

Section Dispatch.

Variable Error_isHandled : jsError -> bool.
Variable DbUtils_checkConnectionErr : jsError -> bool.
Variable res__ : string -> string.

(** What becomes of the effects of a middleware registered before the error
    handler of [app.js]: an error it hands to [next] is given to that
    handler, the first error middleware after the routes; what the handler
    itself hands to [next] goes on to the middlewares after it. *)
Definition to_error_handler (effects : list ResEffect) : list ResEffect :=
  flat_map
    (fun effect =>
       match effect with
       | next (Some err) =>
           errorHandler Error_isHandled DbUtils_checkConnectionErr res__ err
       | _ => [effect]
       end)
    effects.

End Dispatch.

(** The effects that answer the client: [res.send] and [res.json]. *)
Definition is_response (effect : ResEffect) : bool :=
  match effect with
  | res_send _ | res_json _ => true
  | res_status _ | next _ => false
  end.

(** The effects that hand something to [next]. *)
Definition is_next (effect : ResEffect) : bool :=
  match effect with
  | next _ => true
  | _ => false
  end.

(** ** Plain objects

    An object literal is the list of its own properties in insertion order,
    each key at most once. *)

Module Obj.

Section Defs.

Context {V : Type}.

(** [o[k]]. *)
Fixpoint get (k : string) (o : list (string * V)) : option V :=
  match o with
  | [] => None
  | (k', v) :: rest => if k' =? k then Some v else get k rest
  end.

(** [o[k] = v]: an existing key keeps its place, a new one goes last. *)
Fixpoint set (k : string) (v : V) (o : list (string * V)) : list (string * V) :=
  match o with
  | [] => [(k, v)]
  | (k', v') :: rest => if k' =? k then (k, v) :: rest else (k', v') :: set k v rest
  end.

(** [_.assign(object, source)]: the own properties of [source] are assigned
    to [object] one after the other. *)
Definition assign (object source : list (string * V)) : list (string * V) :=
  fold_left (fun acc kv => set (fst kv) (snd kv) acc) source object.

Definition keys (o : list (string * V)) : list string := map fst o.

End Defs.

End Obj.

(** ** The request-specific configuration of [app.js] *)

Section RequestConfig.

(** The values of the configuration, with the strings among them. *)
Context {V : Type}.
Variable of_string : string -> V.
(** [config.get('app')]. *)
Variable app_config : list (string * V).

(** [app.use((req, res, next) => ...)] of the request-specific config: the
    object stored in [res.locals.config], and the call of [next]. *)
Definition requestConfig (protocol hostname : string)
  : list (string * V) * list ResEffect :=
  let c := [("root", of_string (protocol ++ "://" ++ hostname))] in
  let c := Obj.assign c app_config in
  (c, [next None]).

End RequestConfig.

(** ** The access-control headers of [app.js] *)

(** A header value as handed to [res.setHeader]. *)
Inductive HeaderValue : Type :=
| header_string (s : string)
| header_bool (b : bool).

Definition lower_ascii (c : ascii) : ascii :=
  let n := nat_of_ascii c in
  if ((65 <=? n)%nat && (n <=? 90)%nat)%bool then ascii_of_nat (n + 32) else c.

(** [name.toLowerCase()] on the letters of a header name. *)
Fixpoint toLowerCase (s : string) : string :=
  match s with
  | EmptyString => EmptyString
  | String c r => String (lower_ascii c) (toLowerCase r)
  end.

(** [res.setHeader(name, value)] and [res.getHeader(name)]: the headers are
    kept under the lower-case form of their name. *)
Definition setHeader (name : string) (value : HeaderValue)
  (headers : list (string * HeaderValue)) : list (string * HeaderValue) :=
  Obj.set (toLowerCase name) value headers.

Definition getHeader (name : string) (headers : list (string * HeaderValue))
  : option HeaderValue :=
  Obj.get (toLowerCase name) headers.

(** [app.use((req, res, next) => ...)] of the headers: the headers of the
    response after it, and the call of [next]. *)
Definition accessControlHeaders (headers : list (string * HeaderValue))
  : list (string * HeaderValue) * list ResEffect :=
  let headers := setHeader "Access-Control-Allow-Origin" (header_string "*") headers in
  let headers :=
    setHeader "Access-Control-Allow-Methods"
      (header_string "GET, POST, OPTIONS, PUT, PATCH, DELETE") headers in
  let headers :=
    setHeader "Access-Control-Allow-Headers"
      (header_string "X-Requested-With,content-type, Accept") headers in
  let headers := setHeader "Access-Control-Allow-Credentials" (header_bool true) headers in
  (headers, [next None]).

(** The four names, as the response keeps them. *)
Definition access_control_names : list string :=
  [ "access-control-allow-origin"; "access-control-allow-methods";
    "access-control-allow-headers"; "access-control-allow-credentials" ].

(** ** More on the schema and on the bootstrap *)

(** The value of a field as its validators see it. *)
Definition validated_value (f : Field) (body : Params.t) : string :=
  toString (option_map trim (get_field f body)).

(** [req.body.password] as the custom validator of [cnf_password] reads it. *)
Definition password_read (sanitizers_persist : bool) (body : Params.t) : option string :=
  if sanitizers_persist then option_map trim (Params.password body)
  else Params.password body.

(** The parameter names of the errors a request can get, in the order in
    which the validators of the schema run. *)
Definition error_params (n1 n3 n4 n5 n6 : nat) : list string :=
  (repeat "first_name" n1 ++ repeat "contact_phone" n3 ++ repeat "email" n4
   ++ repeat "password" n5 ++ repeat "cnf_password" n6)%list.

(** The options object of the call of [mongoose.connect]. *)
Definition connect_options : Mongoose.ConnectOptions :=
  {| Mongoose.autoIndex := true;
     Mongoose.autoReconnect := true;
     Mongoose.reconnectTries := Mongoose.Number_MAX_VALUE;
     Mongoose.reconnectInterval := 500;
     Mongoose.bufferMaxEntries := 0;
     Mongoose.useNewUrlParser := true;
     Mongoose.promiseLibrary := Mongoose.global_Promise |}.

(** The events the bootstrap listens to without throwing. *)
Definition lifecycle_events : list string :=
  [ "connected"; "disconnected"; "reconnect" ].

(** ** More sample data *)

Module Fixture.

(** A configuration that sets the root URL and a title. *)
Definition app_config : list (string * string) :=
  [ ("root", "https://api.example.com"); ("title", "Accounts") ].

(** Headers as an earlier middleware may have left them. *)
Definition headers : list (string * HeaderValue) :=
  [ ("access-control-allow-origin", header_string "https://example.com");
    ("x-powered-by", header_string "Express") ].

(** A listener that was registered by someone else and swallows nothing. *)
Definition quiet_listener : Mongoose.Listener :=
  fun _ => ([Mongoose.Logger_info "seen"], Mongoose.returns).

Definition with_listener : Mongoose.t :=
  Mongoose.on "error" quiet_listener Mongoose.fresh.

(** A store whose lookup fails because the connection is down. *)
Definition unreachable : Locals MemStore.t :=
  {| db_accounts_findOne := fun _ w => (Throw Sample.connection_lost, w);
     db_accounts_create := MemStore.create_account;
     db_profile_create := MemStore.create_profile;
     accounts_initPasswordHash := MemStore.initPasswordHash |}.

(** A request whose first name is blank. *)
Definition blank_first_name : Params.t :=
  set_field f_first_name (Some "   ") Sample.ana.

(** A request whose first name is a no-break space, and one whose
    confirmation ends with one. *)
Definition no_break_space : string := utf8 [194; 160].

Definition no_break_first_name : Params.t :=
  set_field f_first_name (Some no_break_space) Sample.ana.

Definition ana_trailing_no_break : Params.t :=
  set_field f_cnf_password (Some ("secret1" ++ no_break_space)) Sample.ana.

(** A run that starts on the empty store, and how it is after the
    registration of Ana. *)
Definition start : Run MemStore.t :=
  {| world := MemStore.empty; calls := [] |}.

Definition after_ana_run : Run MemStore.t :=
  {| world := Sample.after_ana;
     calls :=
       [ call_findOne (Params.email Sample.ana);
         call_initPasswordHash (Params.password Sample.ana);
         call_accounts_create (account_input Sample.ana Sample.ana_credential);
         call_profile_create (profile_input Sample.ana Sample.ana_account) ] |}.

(** The store after a registration whose profile could not be created. *)
Definition orphaned : MemStore.t :=
  {| MemStore.accounts := [Sample.ana_account]; MemStore.profiles := [];
     MemStore.issued := 2; MemStore.profile_fault := Some Sample.connection_lost |}.

Definition orphaned_run : Run MemStore.t :=
  {| world := orphaned; calls := calls after_ana_run |}.

(** The entry for an email that is taken, under the identity translation. *)
Definition email_taken : FieldError :=
  {| fe_param := "email"; fe_msg := "VAL_ERRORS.USR_ACC_NEW_EMAIL_EXISTS" |}.

Definition mongo_uri : option string := Some "mongodb://localhost/app".

Definition connect_ok (uri : option string) (options : Mongoose.ConnectOptions)
  : Completion unit := Normal tt.

End Fixture.

(** * Properties *)

(** ** The error handler *)

Section ErrorHandlerFacts.

Variable Error_isHandled : jsError -> bool.
Variable DbUtils_checkConnectionErr : jsError -> bool.
Variable res__ : string -> string.

Local Abbreviation handler := (errorHandler Error_isHandled DbUtils_checkConnectionErr res__).
Local Abbreviation category := (classify Error_isHandled DbUtils_checkConnectionErr).

Lemma classify_handled (err : jsError) :
  category err = Handled <-> Error_isHandled err = true.
Proof.
  unfold classify.
  destruct (Error_isHandled err); [tauto|].
  destruct (DbUtils_checkConnectionErr err); split; discriminate.
Qed.

Lemma classify_connectivity (err : jsError) :
  category err = Connectivity <->
  Error_isHandled err = false /\ DbUtils_checkConnectionErr err = true.
Proof.
  unfold classify.
  destruct (Error_isHandled err), (DbUtils_checkConnectionErr err);
    split; try discriminate; intuition discriminate.
Qed.

Lemma classify_unclassified (err : jsError) :
  category err = Unclassified <->
  Error_isHandled err = false /\ DbUtils_checkConnectionErr err = false.
Proof.
  unfold classify.
  destruct (Error_isHandled err), (DbUtils_checkConnectionErr err);
    split; try discriminate; intuition discriminate.
Qed.

(** C4: an error that the handler classifies as a storage-connectivity error
    is answered with status 503 and the envelope made of the localized
    default message and the code [temporarily_unavailable], and nothing
    else. *)
Theorem connectivity_error_is_503 (err : jsError) :
  category err = Connectivity ->
  handler err =
    [res_status (Some 503%Z);
     res_send {| env_error := res__ "DEFAULT_ERRORS.TEMPORARILY_UNAVAILABLE";
                 env_error_code := Some "temporarily_unavailable";
                 env_errors := None |}].
Proof.
  intros H. apply classify_connectivity in H. destruct H as [Hh Hc].
  unfold errorHandler. now rewrite Hh, Hc.
Qed.

(** C5: an error that is neither handled nor a connectivity error is
    answered with status 500, the code [server_error] and the generic
    localized message; once the response is sent, the same error is passed
    on to the next error middleware. *)
Theorem unclassified_error_is_500_and_forwarded (err : jsError) :
  Error_isHandled err = false ->
  DbUtils_checkConnectionErr err = false ->
  handler err =
    [res_status (Some 500%Z);
     res_send {| env_error := res__ "DEFAULT_ERRORS.SERVER_ERROR";
                 env_error_code := Some "server_error";
                 env_errors := None |};
     next (Some err)].
Proof.
  intros Hh Hc. unfold errorHandler. now rewrite Hh, Hc.
Qed.

(** C6: for a handled error the status and the code of the response are
    those of the error; the message is the error's own when it has one (a
    non-empty [message]) and otherwise the translation of
    [DEFAULT_ERRORS.<locale_tag>]; the envelope has an [errors] key exactly
    when the error has one, with the same list. *)
Theorem handled_error_envelope (err : jsError) :
  Error_isHandled err = true ->
  exists obj,
    handler err = [res_status (api_status err); res_send obj] /\
    env_error_code obj = api_code err /\
    (Js.truthy (message err) = true -> Some (env_error obj) = message err) /\
    (Js.truthy (message err) = false ->
       env_error obj = res__ ("DEFAULT_ERRORS." ++ Js.interpolate (locale_tag err))) /\
    env_errors obj = errors err /\
    (env_errors obj <> None <-> errors err <> None).
Proof.
  intros Hh. unfold errorHandler. rewrite Hh.
  eexists. split; [reflexivity|].
  destruct err as [n m st c lt es]; cbn.
  repeat split.
  - now destruct es.
  - destruct m as [s|]; cbn; [|discriminate].
    intros Ht. destruct es; cbn; now rewrite Ht.
  - destruct m as [s|]; cbn.
    + intros Ht. destruct es; cbn; now rewrite Ht.
    + now destruct es.
  - now destruct es.
  - destruct es; cbn; [intros _; discriminate | intros H; now elim H].
  - destruct es; cbn; [intros _; discriminate | intros H; now elim H].
Qed.

(** A handled error that carries a list of field errors reaches the client
    with that list under [errors]. *)
Lemma field_errors_reach_client (err : jsError) (errs : list FieldError) :
  Error_isHandled err = true ->
  errors err = Some errs ->
  exists obj,
    handler err = [res_status (api_status err); res_send obj] /\
    env_errors obj = Some errs.
Proof.
  intros Hh He. unfold errorHandler. rewrite Hh, He. cbn.
  eexists. split; reflexivity.
Qed.

(** A handled error is never passed on to the next error middleware. *)
Lemma handled_error_is_not_forwarded (err : jsError) (e : option jsError) :
  Error_isHandled err = true -> ~ In (next e) (handler err).
Proof.
  intros Hh. unfold errorHandler. rewrite Hh.
  intros [H|[H|[]]]; discriminate.
Qed.

End ErrorHandlerFacts.

(** ** The controller *)

Lemma invoke_eq {W A : Type} (c : Call) (op : W -> Completion A * W)
  (s : Run W) (r : Completion A) (w' : W) :
  op (world s) = (r, w') ->
  invoke c op s = (r, {| world := w'; calls := (calls s ++ [c])%list |}).
Proof. intros H. unfold invoke. now rewrite H. Qed.

Lemma credential_eta (c : Credential) : {| hash := hash c; salt := salt c |} = c.
Proof. now destruct c. Qed.

Lemma writes_app (xs ys : list Call) : writes (xs ++ ys) = (writes xs ++ writes ys)%list.
Proof. apply filter_app. Qed.

(** Unfold one layer of the monad and normalise the record of calls. *)
Ltac async_unfold :=
  unfold controller, registration, try_catch, bind, ret.

Ltac async_step H :=
  erewrite invoke_eq by (cbn [world calls]; exact H); cbn [world calls].

Ltac calls_norm :=
  repeat rewrite <- app_assoc; cbn [app].

Section ControllerFacts.

Context {W : Type}.
Variable locals : Locals W.
Variable Error_ValidationError : list FieldError -> jsError.
Variable res__ : string -> string.

Local Abbreviation run := (controller locals Error_ValidationError res__).

(** C1: when the lookup by email finds no account and the store accepts the
    two documents, the controller makes exactly two writes, in this order:
    one account, holding the email and the hash and salt of the helper, and
    one profile whose [account_id] is the identifier of the account just
    created; it answers with [{account, profile}], the two records the store
    returned. *)
Theorem registration_creates_account_then_profile
  (params : Params.t) (s : Run W) (w1 w2 w3 w4 : W)
  (cred : Credential) (account : Account.doc) (profile : Profile.doc) :
  db_accounts_findOne locals (Params.email params) (world s) = (Normal None, w1) ->
  accounts_initPasswordHash locals (Params.password params) w1 = (Normal cred, w2) ->
  db_accounts_create locals (account_input params cred) w2 = (Normal account, w3) ->
  db_profile_create locals (profile_input params account) w3 = (Normal profile, w4) ->
  exists s',
    run params s = (Normal [res_json {| account := account; profile := profile |}], s') /\
    world s' = w4 /\
    calls s' =
      (calls s ++
       [call_findOne (Params.email params);
        call_initPasswordHash (Params.password params);
        call_accounts_create (account_input params cred);
        call_profile_create (profile_input params account)])%list /\
    writes (calls s') =
      (writes (calls s) ++
       [call_accounts_create (account_input params cred);
        call_profile_create (profile_input params account)])%list /\
    Profile.account_id (profile_input params account) = Account.id account.
Proof.
  intros Hfind Hhash Hacc Hprof.
  eexists. split.
  - async_unfold.
    async_step Hfind.
    async_step Hhash. rewrite credential_eta.
    async_step Hacc.
    async_step Hprof.
    calls_norm. reflexivity.
  - cbn [world calls]. repeat split.
    now rewrite writes_app.
Qed.

(** C2: when the lookup by email finds an account, the controller passes
    [Error.ValidationError([{param: 'email', msg: ...}])] to [next] and does
    nothing else: the lookup is its only call, and no write is made. *)
Theorem existing_email_is_rejected_without_writes
  (params : Params.t) (s : Run W) (w1 : W) (existing : Account.doc) :
  db_accounts_findOne locals (Params.email params) (world s) = (Normal (Some existing), w1) ->
  exists s',
    run params s =
      (Normal [next (Some (Error_ValidationError
                 [{| fe_param := "email";
                     fe_msg := res__ "VAL_ERRORS.USR_ACC_NEW_EMAIL_EXISTS" |}]))], s') /\
    world s' = w1 /\
    calls s' = (calls s ++ [call_findOne (Params.email params)])%list /\
    writes (calls s') = writes (calls s).
Proof.
  intros Hfind.
  eexists. split.
  - async_unfold. async_step Hfind. reflexivity.
  - cbn [world calls]. repeat split.
    rewrite writes_app. cbn. now rewrite app_nil_r.
Qed.

(** C9: when the creation of the profile fails after the account was
    created, the controller passes that very error to [next]; the failed
    call is its last one, so the world is left as that call left it, with
    the account in it and nothing undone, compensated or tried again. *)
Theorem profile_failure_leaves_account
  (params : Params.t) (s : Run W) (w1 w2 w3 w4 : W)
  (cred : Credential) (account : Account.doc) (e : jsError) :
  db_accounts_findOne locals (Params.email params) (world s) = (Normal None, w1) ->
  accounts_initPasswordHash locals (Params.password params) w1 = (Normal cred, w2) ->
  db_accounts_create locals (account_input params cred) w2 = (Normal account, w3) ->
  db_profile_create locals (profile_input params account) w3 = (Throw e, w4) ->
  exists s',
    run params s = (Normal [next (Some e)], s') /\
    world s' = w4 /\
    calls s' =
      (calls s ++
       [call_findOne (Params.email params);
        call_initPasswordHash (Params.password params);
        call_accounts_create (account_input params cred);
        call_profile_create (profile_input params account)])%list.
Proof.
  intros Hfind Hhash Hacc Hprof.
  eexists. split.
  - async_unfold.
    async_step Hfind.
    async_step Hhash. rewrite credential_eta.
    async_step Hacc.
    async_step Hprof.
    calls_norm. reflexivity.
  - cbn [world calls]. now split.
Qed.

(** Whatever the injected modules do, the controller itself never throws and
    answers exactly once: with [res.json] or with [next(err)]. *)
Lemma controller_answers_once (params : Params.t) (s : Run W) :
  exists effect s',
    run params s = (Normal [effect], s') /\
    ((exists payload, effect = res_json payload) \/ (exists e, effect = next (Some e))).
Proof.
  async_unfold. unfold invoke.
  destruct (db_accounts_findOne locals _ _) as [[[existing|]|e0] w1]; cbn [world calls].
  - do 2 eexists. split; [reflexivity|]. right. eexists. reflexivity.
  - destruct (accounts_initPasswordHash locals _ _) as [[cred|e1] w2]; cbn [world calls].
    + destruct (db_accounts_create locals _ _) as [[acc|e2] w3]; cbn [world calls].
      * destruct (db_profile_create locals _ _) as [[prof|e3] w4]; cbn [world calls];
          do 2 eexists; (split; [reflexivity|]);
          [left | right]; eexists; reflexivity.
      * do 2 eexists. split; [reflexivity|]. right. eexists. reflexivity.
    + do 2 eexists. split; [reflexivity|]. right. eexists. reflexivity.
  - do 2 eexists. split; [reflexivity|]. right. eexists. reflexivity.
Qed.

End ControllerFacts.

Section StoredCredential.

Context {W : Type}.
Variable locals : Locals W.
Variable Error_ValidationError : list FieldError -> jsError.
Variable res__ : string -> string.

(** C7: whatever the run, an account document that the controller hands to
    the store holds the email of the request and, as its password, exactly
    the hash and salt that the helper returned for the password of the
    request; with a helper whose hash is never its plaintext, the stored
    hash is not the plaintext password. *)
Theorem stored_credential_is_hash_and_salt
  (params : Params.t) (s s' : Run W) (out : Completion (list ResEffect))
  (made : list Call) (d : Account.input) :
  hash_differs_from_plaintext locals ->
  controller locals Error_ValidationError res__ params s = (out, s') ->
  calls s' = (calls s ++ made)%list ->
  In (call_accounts_create d) made ->
  (exists w w',
     accounts_initPasswordHash locals (Params.password params) w
       = (Normal (Account.password d), w')) /\
  Account.email d = Params.email params /\
  Some (hash (Account.password d)) <> Params.password params.
Proof.
  intros Hhelper Hrun Hcalls Hin.
  revert Hrun. async_unfold. unfold invoke. cbn [world calls].
  destruct (db_accounts_findOne locals (Params.email params) (world s))
    as [[[existing|]|e0] w1] eqn:Hfind; cbn [world calls].
  - intros Hrun. inversion Hrun; subst s'. cbn [calls] in Hcalls.
    apply app_inv_head in Hcalls. subst made.
    destruct Hin as [Hin|[]]. discriminate.
  - destruct (accounts_initPasswordHash locals (Params.password params) w1)
      as [[cred|e1] w2] eqn:Hhash; cbn [world calls].
    + rewrite credential_eta.
      destruct (db_accounts_create locals
                  {| Account.email := Params.email params; Account.password := cred |} w2)
        as [[acc|e2] w3] eqn:Hacc; cbn [world calls].
      * destruct (db_profile_create locals _ w3) as [[prof|e3] w4] eqn:Hprof;
          cbn [world calls];
          intros Hrun; inversion Hrun; subst s'; cbn [calls] in Hcalls;
          repeat rewrite <- app_assoc in Hcalls; cbn [app] in Hcalls;
          apply app_inv_head in Hcalls; subst made;
          cbn [In] in Hin;
          (destruct Hin as [Hin|[Hin|[Hin|[Hin|[]]]]]; try discriminate Hin);
          inversion Hin; subst d; cbn [Account.password Account.email];
          (split; [exists w1, w2; exact Hhash | split; [reflexivity | eapply Hhelper; exact Hhash]]).
      * intros Hrun; inversion Hrun; subst s'; cbn [calls] in Hcalls.
        repeat rewrite <- app_assoc in Hcalls; cbn [app] in Hcalls.
        apply app_inv_head in Hcalls; subst made.
        cbn [In] in Hin.
        destruct Hin as [Hin|[Hin|[Hin|[]]]]; try discriminate Hin.
        inversion Hin; subst d; cbn [Account.password Account.email].
        split; [exists w1, w2; exact Hhash | split; [reflexivity | eapply Hhelper; exact Hhash]].
    + intros Hrun; inversion Hrun; subst s'; cbn [calls] in Hcalls.
      repeat rewrite <- app_assoc in Hcalls; cbn [app] in Hcalls.
      apply app_inv_head in Hcalls; subst made.
      cbn [In] in Hin.
      destruct Hin as [Hin|[Hin|[]]]; discriminate Hin.
  - intros Hrun; inversion Hrun; subst s'; cbn [calls] in Hcalls.
    apply app_inv_head in Hcalls; subst made.
    destruct Hin as [Hin|[]]. discriminate.
Qed.

End StoredCredential.

(** ** Trimming *)

Lemma after_space_shorter (s r : string) :
  after_space s = Some r -> String.length r < String.length s.
Proof.
  destruct s as [|a [|b [|c r3]]]; cbn; try discriminate.
  - destruct (space1 a); intros H; inversion H; subst; cbn; lia.
  - destruct (space1 a); [intros H; inversion H; subst; cbn; lia|].
    destruct (space2 a b); intros H; inversion H; subst; cbn; lia.
  - destruct (space1 a); [intros H; inversion H; subst; cbn; lia|].
    destruct (space2 a b); [intros H; inversion H; subst; cbn; lia|].
    destruct (space3 a b c); intros H; inversion H; subst; cbn; lia.
Qed.

(** [ltrim] drops one white-space character after the other. *)
Lemma ltrim_eq (s : string) :
  ltrim s = match after_space s with Some r => ltrim r | None => s end.
Proof.
  destruct s as [|a [|b [|c r3]]]; cbn; try reflexivity.
  - now destruct (space1 a).
  - destruct (space1 a); [reflexivity|]. now destruct (space2 a b).
  - destruct (space1 a); [reflexivity|]. destruct (space2 a b); [reflexivity|].
    now destruct (space3 a b c).
Qed.

Lemma ltrim_fixed (s : string) : after_space s = None -> ltrim s = s.
Proof. intros H. now rewrite ltrim_eq, H. Qed.

Lemma ltrim_no_leading_space (s : string) : after_space (ltrim s) = None.
Proof.
  remember (String.length s) as n eqn:Hn.
  revert s Hn. induction n as [n IH] using lt_wf_ind. intros s ->.
  rewrite ltrim_eq. destruct (after_space s) as [r|] eqn:E; [|exact E].
  apply (IH (String.length r)); [now apply after_space_shorter | reflexivity].
Qed.

(** A white-space character at the start of a string is one at the start of
    every string that continues it. *)
Lemma after_space_app (x r y : string) :
  after_space x = Some r -> after_space (x ++ y) = Some (r ++ y).
Proof.
  destruct x as [|a [|b [|c r3]]]; cbn; try discriminate.
  - destruct (space1 a); [|discriminate]. intros H; inversion H; subst. reflexivity.
  - destruct (space1 a); [intros H; inversion H; subst; reflexivity|].
    destruct (space2 a b); [|discriminate]. intros H; inversion H; subst. reflexivity.
  - destruct (space1 a); [intros H; inversion H; subst; reflexivity|].
    destruct (space2 a b); [intros H; inversion H; subst; reflexivity|].
    destruct (space3 a b c); [|discriminate]. intros H; inversion H; subst. reflexivity.
Qed.

Lemma blank_app (x y : string) : blank x = true -> ltrim (x ++ y) = ltrim y.
Proof.
  remember (String.length x) as n eqn:Hn.
  revert x Hn. induction n as [n IH] using lt_wf_ind. intros x -> Hb.
  unfold blank in Hb. rewrite ltrim_eq in Hb.
  destruct (after_space x) as [r|] eqn:E.
  - rewrite ltrim_eq, (after_space_app x r y E).
    apply (IH (String.length r)); [now apply after_space_shorter | reflexivity|].
    unfold blank. exact Hb.
  - destruct x; [reflexivity | discriminate].
Qed.

(** What [rtrim] drops is white space, and what it keeps is the start of
    the string. *)
Lemma rtrim_split (s : string) : exists w, s = rtrim s ++ w /\ blank w = true.
Proof.
  induction s as [|a r IH]; [now exists ""|].
  cbn [rtrim]. destruct (blank (String a r)) eqn:E.
  - now exists (String a r).
  - destruct IH as (w & Hr & Hw). exists w. split; [|exact Hw].
    cbn. now rewrite <- Hr.
Qed.

Lemma blank_prefix (x w : string) :
  blank w = true -> blank x = true -> blank (x ++ w) = true.
Proof.
  intros Hw Hx. unfold blank. rewrite (blank_app x w Hx). exact Hw.
Qed.

Lemma rtrim_idempotent (s : string) : rtrim (rtrim s) = rtrim s.
Proof.
  induction s as [|a r IH]; [reflexivity|].
  cbn [rtrim]. destruct (blank (String a r)) eqn:E; [reflexivity|].
  cbn [rtrim]. rewrite IH.
  destruct (blank (String a (rtrim r))) eqn:E'; [|reflexivity].
  destruct (rtrim_split r) as (w & Hr & Hw).
  assert (Hb : blank (String a (rtrim r) ++ w) = true) by now apply blank_prefix.
  cbn [append] in Hb. rewrite <- Hr in Hb. congruence.
Qed.

Lemma rtrim_keeps_head (s : string) :
  after_space s = None -> after_space (rtrim s) = None.
Proof.
  intros Hs. destruct (after_space (rtrim s)) as [r|] eqn:E; [|reflexivity].
  destruct (rtrim_split s) as (w & Hsplit & _).
  apply (after_space_app _ _ w) in E. rewrite <- Hsplit in E. congruence.
Qed.

Lemma trim_idempotent (s : string) : trim (trim s) = trim s.
Proof.
  unfold trim.
  rewrite (ltrim_fixed (rtrim (ltrim s))).
  - apply rtrim_idempotent.
  - apply rtrim_keeps_head, ltrim_no_leading_space.
Qed.

(** Every white-space character of more than one byte is trimmed on both
    sides, as the ones of one byte are. *)
Lemma trim_wide_spaces :
  Forall (fun w => trim (w ++ " a b" ++ w ++ " ") = "a b") wide_spaces.
Proof. repeat constructor. Qed.

Lemma strict_eq_true (a b : option string) : Js.strict_eq a b = true -> a = b.
Proof.
  destruct a, b; cbn; try discriminate; [|reflexivity].
  intros H. apply String.eqb_eq in H. now subst.
Qed.

(** ** The validation schema *)

Section ValidationFacts.

Variable req__ : string -> string.
Variables isInt isEmail : string -> bool.
Variable persist : bool.

Local Abbreviation check := (checkSchema req__ isInt isEmail persist).
Local Abbreviation before := (before_cnf_password req__ isInt isEmail persist).
Local Abbreviation errors_of := (chain_errors req__ isInt isEmail).

Lemma checkSchema_last (body : Params.t) :
  check body =
  (if persist
   then set_field f_cnf_password
          (sanitized cnf_password_schema (fst (before body))) (fst (before body))
   else fst (before body),
   (snd (before body) ++ errors_of cnf_password_schema (fst (before body)))%list).
Proof.
  unfold checkSchema, before_cnf_password, schema. cbn [fold_left].
  match goal with
  | |- run_chain _ _ _ _ ?st cnf_password_schema = _ => destruct st as [b errs]
  end.
  reflexivity.
Qed.

(** What the chain of [cnf_password] finds in the body. *)
Lemma before_password (body : Params.t) :
  Params.password (fst (before body)) =
  if persist then option_map trim (Params.password body) else Params.password body.
Proof.
  destruct body as [fn ln ph em pw cf].
  unfold before_cnf_password. destruct persist, ln; reflexivity.
Qed.

Lemma before_cnf (body : Params.t) :
  Params.cnf_password (fst (before body)) = Params.cnf_password body.
Proof.
  destruct body as [fn ln ph em pw cf].
  unfold before_cnf_password. destruct persist, ln; reflexivity.
Qed.

Lemma custom_rejection_is_reported (b : Params.t) :
  cnf_password_custom (sanitized cnf_password_schema b) b = false ->
  In (cnf_mismatch req__) (errors_of cnf_password_schema b).
Proof.
  intros H. unfold chain_errors, rejects, sanitized, cnf_mismatch in *.
  cbn in *. rewrite H. cbn.
  destruct (isEmpty _); cbn; auto.
Qed.

Lemma custom_fails_on_falsy_password (value : option string) (b : Params.t) :
  Js.truthy (Params.password b) = false -> cnf_password_custom value b = false.
Proof. intros H. unfold cnf_password_custom. now rewrite H. Qed.

Lemma falsy_stays_falsy (pw : option string) :
  pw = None \/ pw = Some "" ->
  Js.truthy (if persist then option_map trim pw else pw) = false.
Proof. intros [->| ->]; destruct persist; reflexivity. Qed.

(** C10: when [password] is missing or empty, the custom validator of
    [cnf_password] fails whatever [cnf_password] is, and the mismatch entry
    on [cnf_password] is among the errors; when both fields are empty
    strings, the errors end with the missing-password entry, the
    missing-confirmation entry and the mismatch entry. *)
Theorem cnf_check_fails_without_password (body : Params.t) :
  Params.password body = None \/ Params.password body = Some "" ->
  cnf_password_custom
    (sanitized cnf_password_schema (fst (before body))) (fst (before body)) = false /\
  In (cnf_mismatch req__) (snd (check body)) /\
  (Params.password body = Some "" -> Params.cnf_password body = Some "" ->
   exists earlier,
     snd (check body) =
       (earlier ++
        [password_missing req__; cnf_password_missing req__; cnf_mismatch req__])%list).
Proof.
  intros Hpw.
  assert (Hfail : forall value, cnf_password_custom value (fst (before body)) = false).
  { intros value. apply custom_fails_on_falsy_password.
    rewrite before_password. now apply falsy_stays_falsy. }
  split; [apply Hfail|]. split.
  - rewrite checkSchema_last. cbn [snd]. apply in_or_app. right.
    apply custom_rejection_is_reported, Hfail.
  - intros Hp Hc. destruct body as [fn ln ph em pw cf]. cbn in Hp, Hc. subst pw cf.
    unfold checkSchema, schema.
    destruct persist, ln; cbn;
      repeat rewrite <- app_assoc; cbn [app];
      repeat rewrite app_assoc;
      eexists; reflexivity.
Qed.

End ValidationFacts.

(** ** The route *)

Section RouteFacts.

Context {W : Type}.
Variable locals : Locals W.
Variable Error_ValidationError : list FieldError -> jsError.
Variable i18n__ : string -> string.
Variables isInt isEmail : string -> bool.
Variable persist : bool.

Local Abbreviation check := (checkSchema i18n__ isInt isEmail persist).
Local Abbreviation before := (before_cnf_password i18n__ isInt isEmail persist).

(** Two passwords that differ once trimmed fail the custom validator,
    whether or not the chain of [password] has written its trimmed value
    back. *)
Lemma trimmed_mismatch_fails_custom (body : Params.t) :
  option_map trim (Params.password body) <> option_map trim (Params.cnf_password body) ->
  cnf_password_custom
    (sanitized cnf_password_schema (fst (before body))) (fst (before body)) = false.
Proof.
  intros Hne. unfold sanitized. cbn [trimmed field cnf_password_schema get_field].
  rewrite before_cnf. unfold cnf_password_custom. rewrite before_password.
  apply andb_false_iff. right.
  destruct (Js.strict_eq _ _) eqn:E; [|reflexivity].
  apply strict_eq_true in E. exfalso. apply Hne.
  destruct persist; [exact E|].
  rewrite E. destruct (Params.cnf_password body) as [c|]; cbn; [|reflexivity].
  now rewrite trim_idempotent.
Qed.

(** C3 (as amended): when [password] and [cnf_password] differ once both are
    trimmed, the route ends at the validator: the list of field errors, with
    the mismatch entry on [cnf_password] in it, is passed to [next] inside a
    validation error, and the run is left as it was found, with no call to
    the database and none to the controller. *)
Theorem trimmed_mismatch_stops_at_validator (body : Params.t) (s : Run W) :
  option_map trim (Params.password body) <> option_map trim (Params.cnf_password body) ->
  exists errs,
    accountsReg locals Error_ValidationError i18n__ isInt isEmail persist body s
      = (Normal [next (Some (Error_ValidationError errs))], s) /\
    errs = snd (check body) /\
    In (cnf_mismatch i18n__) errs.
Proof.
  intros Hne.
  assert (Hin : In (cnf_mismatch i18n__) (snd (check body))).
  { rewrite checkSchema_last. cbn [snd]. apply in_or_app. right.
    apply custom_rejection_is_reported, trimmed_mismatch_fails_custom, Hne. }
  unfold accountsReg.
  destruct (check body) as [body' errs]. cbn [snd] in Hin.
  exists errs. destruct errs as [|e errs']; [contradiction|].
  unfold InputValidator, ret. auto.
Qed.

End RouteFacts.

(** C3 (as stated) fails: in the sample request with a blank after the
    confirmation the two password fields differ, yet with library predicates
    that accept the sample phone and email the schema finds no error, the
    controller runs, and an account and a profile are written. *)
Lemma blank_after_confirmation_passes_validation :
  Params.password Sample.ana_trailing_blank <> Params.cnf_password Sample.ana_trailing_blank /\
  (forall (isInt isEmail : string -> bool) (persist : bool),
     isInt "5551234" = true -> isEmail "ana@example.com" = true ->
     snd (checkSchema Sample.i18n__ isInt isEmail persist Sample.ana_trailing_blank) = [] /\
     exists payload s',
       accountsReg MemStore.locals Sample.ValidationError Sample.i18n__
         isInt isEmail persist Sample.ana_trailing_blank
         {| world := MemStore.empty; calls := [] |}
       = (Normal [res_json payload], s') /\
       length (writes (calls s')) = 2 /\
       length (MemStore.accounts (world s')) = 1 /\
       length (MemStore.profiles (world s')) = 1).
Proof.
  split; [discriminate|].
  intros isInt isEmail persist Hint Hemail.
  destruct persist; cbv; rewrite Hint, Hemail;
    (split; [reflexivity | do 2 eexists; split; [reflexivity | repeat split]]).
Qed.

(** ** The connection bootstrap *)

(** C8: once the bootstrap has run with a configured URI, an ['error'] event
    of the connection is logged and then thrown again by the listener; the
    exception escapes the emission and ends the process, whatever the error
    and however the connection attempt ended. *)
Theorem connection_error_crashes_process
  (MONGO_DB_URI : option string) (MONGO_DB_DEBUG : bool)
  (connect : option string -> Mongoose.ConnectOptions -> Completion unit)
  (err : jsError) :
  Js.truthy MONGO_DB_URI = true ->
  Mongoose.after_emit "error" (Some err)
    (fst (Mongoose.bootstrap MONGO_DB_URI MONGO_DB_DEBUG connect Mongoose.fresh))
  = ([Mongoose.Logger_error "core.mongoose - connection - error - " (Some err)],
     Mongoose.crashed (Some err)).
Proof.
  intros Huri. unfold Mongoose.bootstrap. rewrite Huri. cbn [negb].
  destruct (connect MONGO_DB_URI _); reflexivity.
Qed.

(** The listener never returns: whatever it is given, it throws it. *)
Lemma on_error_always_throws (arg : option jsError) :
  snd (Mongoose.on_error arg) = Mongoose.throws arg.
Proof. reflexivity. Qed.

(** The bootstrap turns command buffering off. *)
Lemma bootstrap_disables_buffering
  (MONGO_DB_URI : option string) (MONGO_DB_DEBUG : bool)
  (connect : option string -> Mongoose.ConnectOptions -> Completion unit) :
  Js.truthy MONGO_DB_URI = true ->
  Mongoose.bufferCommands
    (fst (Mongoose.bootstrap MONGO_DB_URI MONGO_DB_DEBUG connect Mongoose.fresh)) = false.
Proof.
  intros Huri. unfold Mongoose.bootstrap. rewrite Huri. cbn [negb].
  destruct (connect MONGO_DB_URI _); reflexivity.
Qed.

(** Without a URI the bootstrap leaves the singleton alone. *)
Lemma bootstrap_skipped_without_uri
  (MONGO_DB_URI : option string) (MONGO_DB_DEBUG : bool)
  (connect : option string -> Mongoose.ConnectOptions -> Completion unit)
  (m : Mongoose.t) :
  Js.truthy MONGO_DB_URI = false ->
  Mongoose.bootstrap MONGO_DB_URI MONGO_DB_DEBUG connect m = (m, Normal tt).
Proof. intros Huri. unfold Mongoose.bootstrap. now rewrite Huri. Qed.

(** ** The controller on the in-memory store *)

Lemma length_append (a b : string) :
  String.length (a ++ b) = String.length a + String.length b.
Proof. induction a as [|c a IH]; cbn; [reflexivity | now rewrite IH]. Qed.

Lemma memstore_hash_differs : hash_differs_from_plaintext MemStore.locals.
Proof.
  intros pw w w' cred H. cbn in H. unfold MemStore.initPasswordHash in H.
  inversion H; subst; clear H. cbn [hash].
  destruct pw as [p|]; [|discriminate].
  intros Heq. inversion Heq as [Hs]. apply (f_equal String.length) in Hs.
  cbn [toString] in Hs. cbn in Hs. rewrite length_append in Hs. cbn in Hs. lia.
Qed.

Section MemStoreFacts.

Variable Error_ValidationError : list FieldError -> jsError.
Variable res__ : string -> string.

Local Abbreviation run := (controller MemStore.locals Error_ValidationError res__).

(** On a working store that holds no account with the email of the request,
    the controller adds one account and one profile that refers to it, and
    answers with the two. *)
Lemma memstore_registration (params : Params.t) (s : Run MemStore.t) :
  fst (MemStore.findOne (Params.email params) (world s)) = Normal None ->
  MemStore.profile_fault (world s) = None ->
  exists account profile s',
    run params s = (Normal [res_json {| account := account; profile := profile |}], s') /\
    MemStore.accounts (world s') = (MemStore.accounts (world s) ++ [account])%list /\
    MemStore.profiles (world s') = (MemStore.profiles (world s) ++ [profile])%list /\
    Profile.account_id (Profile.fields profile) = Account.id account /\
    Account.email (Account.fields account) = Params.email params.
Proof.
  intros Hfind Hok. destruct s as [w cs]. cbn [world] in *.
  unfold MemStore.findOne in Hfind. cbn [fst] in Hfind. injection Hfind as Hfind.
  do 3 eexists. split.
  - async_unfold. unfold invoke. cbn. rewrite Hfind. cbn. rewrite Hok. reflexivity.
  - cbn. auto.
Qed.

(** On a store that holds an account with the email of the request, the
    store is left as it was. *)
Lemma memstore_existing_email (params : Params.t) (s : Run MemStore.t) (a : Account.doc) :
  fst (MemStore.findOne (Params.email params) (world s)) = Normal (Some a) ->
  exists e s',
    run params s = (Normal [next (Some e)], s') /\ world s' = world s.
Proof.
  intros Hfind. destruct s as [w cs]. cbn [world] in *.
  unfold MemStore.findOne in Hfind. cbn [fst] in Hfind. injection Hfind as Hfind.
  do 2 eexists. split.
  - async_unfold. unfold invoke. cbn. rewrite Hfind. reflexivity.
  - reflexivity.
Qed.

(** On a store where profiles cannot be created, the account stays in the
    store and no profile goes with it. *)
Lemma memstore_orphan_account (params : Params.t) (s : Run MemStore.t) (e : jsError) :
  fst (MemStore.findOne (Params.email params) (world s)) = Normal None ->
  MemStore.profile_fault (world s) = Some e ->
  exists account s',
    run params s = (Normal [next (Some e)], s') /\
    MemStore.accounts (world s') = (MemStore.accounts (world s) ++ [account])%list /\
    MemStore.profiles (world s') = MemStore.profiles (world s) /\
    Account.email (Account.fields account) = Params.email params.
Proof.
  intros Hfind Hko. destruct s as [w cs]. cbn [world] in *.
  unfold MemStore.findOne in Hfind. cbn [fst] in Hfind. injection Hfind as Hfind.
  do 2 eexists. split.
  - async_unfold. unfold invoke. cbn. rewrite Hfind. cbn. rewrite Hko. reflexivity.
  - cbn. auto.
Qed.

End MemStoreFacts.

(** ** The properties at the sample data *)

Lemma connectivity_error_is_503_witness :
  errorHandler Sample.isHandled Sample.checkConnectionErr Sample.i18n__
    Sample.connection_lost
  = [res_status (Some 503%Z);
     res_send {| env_error := "DEFAULT_ERRORS.TEMPORARILY_UNAVAILABLE";
                 env_error_code := Some "temporarily_unavailable";
                 env_errors := None |}].
Proof.
  apply (connectivity_error_is_503 Sample.isHandled Sample.checkConnectionErr
           Sample.i18n__ Sample.connection_lost).
  reflexivity.
Defined.

Lemma unclassified_error_is_500_and_forwarded_witness :
  errorHandler Sample.isHandled Sample.checkConnectionErr Sample.i18n__
    Sample.type_error
  = [res_status (Some 500%Z);
     res_send {| env_error := "DEFAULT_ERRORS.SERVER_ERROR";
                 env_error_code := Some "server_error";
                 env_errors := None |};
     next (Some Sample.type_error)].
Proof.
  apply (unclassified_error_is_500_and_forwarded Sample.isHandled
           Sample.checkConnectionErr Sample.i18n__ Sample.type_error);
    reflexivity.
Defined.

Lemma handled_error_envelope_witness :
  exists obj,
    errorHandler Sample.isHandled Sample.checkConnectionErr Sample.i18n__
      (Sample.ValidationError [{| fe_param := "email"; fe_msg := "taken" |}])
    = [res_status (Some 400%Z); res_send obj] /\
    env_error obj = "DEFAULT_ERRORS.VALIDATION_ERROR" /\
    env_errors obj = Some [{| fe_param := "email"; fe_msg := "taken" |}].
Proof.
  destruct (handled_error_envelope Sample.isHandled Sample.checkConnectionErr
              Sample.i18n__
              (Sample.ValidationError [{| fe_param := "email"; fe_msg := "taken" |}])
              eq_refl)
    as [obj [Hrun [_ [_ [Hmsg [Herrs _]]]]]].
  exists obj. split; [exact Hrun|]. split; [exact (Hmsg eq_refl) | exact Herrs].
Defined.

Lemma registration_creates_account_then_profile_witness :
  exists s',
    controller MemStore.locals Sample.ValidationError Sample.i18n__ Sample.ana
      {| world := MemStore.empty; calls := [] |}
    = (Normal [res_json {| account := Sample.ana_account;
                           profile := Sample.ana_profile |}], s') /\
    world s' = Sample.after_ana /\
    writes (calls s') =
      [call_accounts_create (account_input Sample.ana Sample.ana_credential);
       call_profile_create (profile_input Sample.ana Sample.ana_account)].
Proof.
  destruct (registration_creates_account_then_profile
              MemStore.locals Sample.ValidationError Sample.i18n__ Sample.ana
              {| world := MemStore.empty; calls := [] |}
              MemStore.empty (MemStore.tick MemStore.empty)
              {| MemStore.accounts := [Sample.ana_account]; MemStore.profiles := [];
                 MemStore.issued := 2; MemStore.profile_fault := None |}
              Sample.after_ana
              Sample.ana_credential Sample.ana_account Sample.ana_profile
              eq_refl eq_refl eq_refl eq_refl)
    as [s' [Hrun [Hworld [_ [Hwrites _]]]]].
  exists s'. split; [exact Hrun|]. split; [exact Hworld | exact Hwrites].
Defined.

Lemma existing_email_is_rejected_without_writes_witness :
  exists s',
    controller MemStore.locals Sample.ValidationError Sample.i18n__ Sample.ana
      {| world := Sample.with_ana; calls := [] |}
    = (Normal [next (Some (Sample.ValidationError
                 [{| fe_param := "email";
                     fe_msg := "VAL_ERRORS.USR_ACC_NEW_EMAIL_EXISTS" |}]))], s') /\
    world s' = Sample.with_ana /\
    writes (calls s') = [].
Proof.
  destruct (existing_email_is_rejected_without_writes
              MemStore.locals Sample.ValidationError Sample.i18n__ Sample.ana
              {| world := Sample.with_ana; calls := [] |} Sample.with_ana
              {| Account.id := "a";
                 Account.fields :=
                   {| Account.email := Some "ana@example.com";
                      Account.password := {| hash := "#s:old"; salt := "s" |} |} |}
              eq_refl)
    as [s' [Hrun [Hworld [_ Hwrites]]]].
  exists s'. split; [exact Hrun|]. split; [exact Hworld | exact Hwrites].
Defined.

Lemma profile_failure_leaves_account_witness :
  exists s',
    controller MemStore.locals Sample.ValidationError Sample.i18n__ Sample.ana
      {| world := Sample.profiles_down; calls := [] |}
    = (Normal [next (Some Sample.connection_lost)], s') /\
    MemStore.accounts (world s') = [Sample.ana_account] /\
    MemStore.profiles (world s') = [].
Proof.
  destruct (profile_failure_leaves_account
              MemStore.locals Sample.ValidationError Sample.i18n__ Sample.ana
              {| world := Sample.profiles_down; calls := [] |}
              Sample.profiles_down (MemStore.tick Sample.profiles_down)
              {| MemStore.accounts := [Sample.ana_account]; MemStore.profiles := [];
                 MemStore.issued := 2;
                 MemStore.profile_fault := Some Sample.connection_lost |}
              {| MemStore.accounts := [Sample.ana_account]; MemStore.profiles := [];
                 MemStore.issued := 2;
                 MemStore.profile_fault := Some Sample.connection_lost |}
              Sample.ana_credential Sample.ana_account Sample.connection_lost
              eq_refl eq_refl eq_refl eq_refl)
    as [s' [Hrun [Hworld _]]].
  exists s'. split; [exact Hrun|]. now rewrite Hworld.
Defined.

Lemma stored_credential_is_hash_and_salt_witness :
  Some (hash (Account.password (account_input Sample.ana Sample.ana_credential)))
    <> Params.password Sample.ana.
Proof.
  apply (stored_credential_is_hash_and_salt
           MemStore.locals Sample.ValidationError Sample.i18n__ Sample.ana
           {| world := MemStore.empty; calls := [] |}
           {| world := Sample.after_ana;
              calls :=
                [call_findOne (Params.email Sample.ana);
                 call_initPasswordHash (Params.password Sample.ana);
                 call_accounts_create (account_input Sample.ana Sample.ana_credential);
                 call_profile_create (profile_input Sample.ana Sample.ana_account)] |}
           (Normal [res_json {| account := Sample.ana_account;
                                profile := Sample.ana_profile |}])
           [call_findOne (Params.email Sample.ana);
            call_initPasswordHash (Params.password Sample.ana);
            call_accounts_create (account_input Sample.ana Sample.ana_credential);
            call_profile_create (profile_input Sample.ana Sample.ana_account)]
           (account_input Sample.ana Sample.ana_credential)
           memstore_hash_differs eq_refl eq_refl).
  cbn. auto.
Defined.

Lemma trimmed_mismatch_stops_at_validator_witness :
  exists errs,
    accountsReg MemStore.locals Sample.ValidationError Sample.i18n__
      Sample.isInt Sample.isEmail false Sample.ana_mismatch
      {| world := MemStore.empty; calls := [] |}
    = (Normal [next (Some (Sample.ValidationError errs))],
       {| world := MemStore.empty; calls := [] |}) /\
    In (cnf_mismatch Sample.i18n__) errs.
Proof.
  destruct (trimmed_mismatch_stops_at_validator
              MemStore.locals Sample.ValidationError Sample.i18n__
              Sample.isInt Sample.isEmail false Sample.ana_mismatch
              {| world := MemStore.empty; calls := [] |})
    as [errs [Hrun [_ Hin]]].
  - cbv. discriminate.
  - exists errs. split; [exact Hrun | exact Hin].
Defined.

Lemma cnf_check_fails_without_password_witness :
  In (cnf_mismatch Sample.i18n__)
     (snd (checkSchema Sample.i18n__ Sample.isInt Sample.isEmail false
             Sample.ana_empty_passwords)).
Proof.
  apply (cnf_check_fails_without_password Sample.i18n__ Sample.isInt Sample.isEmail
           false Sample.ana_empty_passwords).
  right. reflexivity.
Defined.

Lemma connection_error_crashes_process_witness :
  Mongoose.after_emit "error" (Some Sample.connection_lost)
    (fst (Mongoose.bootstrap (Some "mongodb://localhost/app") false
            (fun _ _ => Normal tt) Mongoose.fresh))
  = ([Mongoose.Logger_error "core.mongoose - connection - error - "
        (Some Sample.connection_lost)],
     Mongoose.crashed (Some Sample.connection_lost)).
Proof.
  apply (connection_error_crashes_process (Some "mongodb://localhost/app") false
           (fun _ _ => Normal tt) Sample.connection_lost).
  reflexivity.
Defined.

(** ** Every run of the controller *)

Section ControllerRuns.

Context {W : Type}.
Variable locals : Locals W.
Variable Error_ValidationError : list FieldError -> jsError.
Variable res__ : string -> string.

Local Abbreviation run := (controller locals Error_ValidationError res__).
Local Abbreviation email_exists :=
  (Error_ValidationError
     [{| fe_param := "email"; fe_msg := res__ "VAL_ERRORS.USR_ACC_NEW_EMAIL_EXISTS" |}]).
Local Abbreviation c_find params := (call_findOne (Params.email params)).
Local Abbreviation c_hash params := (call_initPasswordHash (Params.password params)).
Local Abbreviation c_account params cred :=
  (call_accounts_create (account_input params cred)).
Local Abbreviation c_profile params acc :=
  (call_profile_create (profile_input params acc)).

(** The six ways a run can go, each with what the modules returned, the
    answer, and the calls made. *)
Lemma controller_cases (params : Params.t) (s : Run W) :
  (exists e w1,
     db_accounts_findOne locals (Params.email params) (world s) = (Throw e, w1) /\
     run params s =
       (Normal [next (Some e)],
        {| world := w1; calls := (calls s ++ [c_find params])%list |}))
  \/
  (exists existing w1,
     db_accounts_findOne locals (Params.email params) (world s)
       = (Normal (Some existing), w1) /\
     run params s =
       (Normal [next (Some email_exists)],
        {| world := w1; calls := (calls s ++ [c_find params])%list |}))
  \/
  (exists w1 e w2,
     db_accounts_findOne locals (Params.email params) (world s) = (Normal None, w1) /\
     accounts_initPasswordHash locals (Params.password params) w1 = (Throw e, w2) /\
     run params s =
       (Normal [next (Some e)],
        {| world := w2;
           calls := (calls s ++ [c_find params; c_hash params])%list |}))
  \/
  (exists w1 cred w2 e w3,
     db_accounts_findOne locals (Params.email params) (world s) = (Normal None, w1) /\
     accounts_initPasswordHash locals (Params.password params) w1 = (Normal cred, w2) /\
     db_accounts_create locals (account_input params cred) w2 = (Throw e, w3) /\
     run params s =
       (Normal [next (Some e)],
        {| world := w3;
           calls := (calls s ++ [c_find params; c_hash params;
                                 c_account params cred])%list |}))
  \/
  (exists w1 cred w2 acc w3 e w4,
     db_accounts_findOne locals (Params.email params) (world s) = (Normal None, w1) /\
     accounts_initPasswordHash locals (Params.password params) w1 = (Normal cred, w2) /\
     db_accounts_create locals (account_input params cred) w2 = (Normal acc, w3) /\
     db_profile_create locals (profile_input params acc) w3 = (Throw e, w4) /\
     run params s =
       (Normal [next (Some e)],
        {| world := w4;
           calls := (calls s ++ [c_find params; c_hash params;
                                 c_account params cred; c_profile params acc])%list |}))
  \/
  (exists w1 cred w2 acc w3 prof w4,
     db_accounts_findOne locals (Params.email params) (world s) = (Normal None, w1) /\
     accounts_initPasswordHash locals (Params.password params) w1 = (Normal cred, w2) /\
     db_accounts_create locals (account_input params cred) w2 = (Normal acc, w3) /\
     db_profile_create locals (profile_input params acc) w3 = (Normal prof, w4) /\
     run params s =
       (Normal [res_json {| account := acc; profile := prof |}],
        {| world := w4;
           calls := (calls s ++ [c_find params; c_hash params;
                                 c_account params cred; c_profile params acc])%list |})).
Proof.
  destruct (db_accounts_findOne locals (Params.email params) (world s))
    as [[[existing|]|e0] w1] eqn:Hfind.
  - right; left. exists existing, w1. split; [reflexivity|].
    async_unfold. async_step Hfind. reflexivity.
  - destruct (accounts_initPasswordHash locals (Params.password params) w1)
      as [[cred|e1] w2] eqn:Hhash.
    + destruct (db_accounts_create locals (account_input params cred) w2)
        as [[acc|e2] w3] eqn:Hacc.
      * destruct (db_profile_create locals (profile_input params acc) w3)
          as [[prof|e3] w4] eqn:Hprof.
        -- do 5 right. exists w1, cred, w2, acc, w3, prof, w4.
           repeat (split; [first [reflexivity | assumption]|]).
           async_unfold. async_step Hfind. async_step Hhash. rewrite credential_eta.
           async_step Hacc. async_step Hprof. calls_norm. reflexivity.
        -- do 4 right; left. exists w1, cred, w2, acc, w3, e3, w4.
           repeat (split; [first [reflexivity | assumption]|]).
           async_unfold. async_step Hfind. async_step Hhash. rewrite credential_eta.
           async_step Hacc. async_step Hprof. calls_norm. reflexivity.
      * do 3 right; left. exists w1, cred, w2, e2, w3.
        repeat (split; [first [reflexivity | assumption]|]).
        async_unfold. async_step Hfind. async_step Hhash. rewrite credential_eta.
        async_step Hacc. calls_norm. reflexivity.
    + do 2 right; left. exists w1, e1, w2.
      repeat (split; [first [reflexivity | assumption]|]).
      async_unfold. async_step Hfind. async_step Hhash. calls_norm. reflexivity.
  - left. exists e0, w1. split; [reflexivity|].
    async_unfold. async_step Hfind. reflexivity.
Qed.

(** X1: whatever the injected modules do, the calls of a run are the first
    one, two, three or four of: the lookup by email, the hashing helper, the
    creation of the account, the creation of the profile.  The profile is
    asked for only with the identifier of an account that the store has just
    returned. *)
Theorem controller_calls_in_order (params : Params.t) (s : Run W) :
  exists made,
    calls (snd (run params s)) = (calls s ++ made)%list /\
    (made = [c_find params]
     \/ made = [c_find params; c_hash params]
     \/ (exists cred, made = [c_find params; c_hash params; c_account params cred])
     \/ (exists cred acc w w',
           db_accounts_create locals (account_input params cred) w = (Normal acc, w') /\
           made = [c_find params; c_hash params; c_account params cred;
                   c_profile params acc])).
Proof.
  destruct (controller_cases params s)
    as [(e & w1 & _ & Hrun)
       |[(a & w1 & _ & Hrun)
        |[(w1 & e & w2 & _ & _ & Hrun)
         |[(w1 & cred & w2 & e & w3 & _ & _ & _ & Hrun)
          |[(w1 & cred & w2 & acc & w3 & e & w4 & _ & _ & Hacc & _ & Hrun)
           |(w1 & cred & w2 & acc & w3 & prof & w4 & _ & _ & Hacc & _ & Hrun)]]]]];
    rewrite Hrun; cbn [snd calls]; eexists; (split; [reflexivity|]).
  - now left.
  - now left.
  - right; now left.
  - right; right; left. now exists cred.
  - right; right; right. exists cred, acc, w2, w3. now split.
  - right; right; right. exists cred, acc, w2, w3. now split.
Qed.

(** X2: the controller answers with [res.json] only after the lookup found
    no account and both documents were created: the payload is made of the
    two documents the store returned, and the writes of the run are those
    two creations. *)
Theorem success_means_both_created
  (params : Params.t) (s s' : Run W) (effects : list ResEffect) (payload : Registered) :
  run params s = (Normal effects, s') ->
  In (res_json payload) effects ->
  exists w1 cred w2 w3,
    db_accounts_findOne locals (Params.email params) (world s) = (Normal None, w1) /\
    accounts_initPasswordHash locals (Params.password params) w1 = (Normal cred, w2) /\
    db_accounts_create locals (account_input params cred) w2
      = (Normal (account payload), w3) /\
    db_profile_create locals (profile_input params (account payload)) w3
      = (Normal (profile payload), world s') /\
    effects = [res_json payload] /\
    writes (calls s') =
      (writes (calls s) ++
       [c_account params cred; c_profile params (account payload)])%list.
Proof.
  intros Hrun Hin.
  destruct (controller_cases params s)
    as [(e & w1 & _ & Hrun')
       |[(a & w1 & _ & Hrun')
        |[(w1 & e & w2 & _ & _ & Hrun')
         |[(w1 & cred & w2 & e & w3 & _ & _ & _ & Hrun')
          |[(w1 & cred & w2 & acc & w3 & e & w4 & _ & _ & _ & _ & Hrun')
           |(w1 & cred & w2 & acc & w3 & prof & w4 & Hf & Hh & Ha & Hp & Hrun')]]]]];
    rewrite Hrun' in Hrun; inversion Hrun; subst effects s'; clear Hrun;
    try (destruct Hin as [Hin|[]]; discriminate Hin).
  destruct Hin as [Hin|[]]. inversion Hin; subst payload; clear Hin.
  cbn [account profile world calls].
  exists w1, cred, w2, w3. repeat (split; [assumption || reflexivity|]).
  now rewrite writes_app.
Qed.

(** X3: an error that the controller hands to [next] is either the
    validation error for an email that the lookup found, or the very error
    that one of the four calls threw; the world is then as that call left
    it. *)
Theorem forwarded_error_comes_from_a_call
  (params : Params.t) (s s' : Run W) (effects : list ResEffect) (e : jsError) :
  run params s = (Normal effects, s') ->
  In (next (Some e)) effects ->
  (exists existing,
     db_accounts_findOne locals (Params.email params) (world s)
       = (Normal (Some existing), world s') /\
     e = email_exists)
  \/ db_accounts_findOne locals (Params.email params) (world s) = (Throw e, world s')
  \/ (exists w,
        accounts_initPasswordHash locals (Params.password params) w = (Throw e, world s'))
  \/ (exists cred w,
        db_accounts_create locals (account_input params cred) w = (Throw e, world s'))
  \/ (exists acc w,
        db_profile_create locals (profile_input params acc) w = (Throw e, world s')).
Proof.
  intros Hrun Hin.
  destruct (controller_cases params s)
    as [(e' & w1 & Hf & Hrun')
       |[(a & w1 & Hf & Hrun')
        |[(w1 & e' & w2 & _ & Hh & Hrun')
         |[(w1 & cred & w2 & e' & w3 & _ & _ & Ha & Hrun')
          |[(w1 & cred & w2 & acc & w3 & e' & w4 & _ & _ & _ & Hp & Hrun')
           |(w1 & cred & w2 & acc & w3 & prof & w4 & _ & _ & _ & _ & Hrun')]]]]];
    rewrite Hrun' in Hrun; inversion Hrun; subst effects s'; clear Hrun;
    destruct Hin as [Hin|[]]; inversion Hin; subst; cbn [world].
  - right; now left.
  - left. now exists a.
  - right; right; left. now exists w1.
  - right; right; right; left. now exists cred, w2.
  - right; right; right; right. now exists acc, w3.
Qed.

End ControllerRuns.

(** ** From the controller to the response *)

Section ResponseFacts.

Context {W : Type}.
Variable locals : Locals W.
Variable Error_ValidationError : list FieldError -> jsError.
Variable Error_isHandled : jsError -> bool.
Variable DbUtils_checkConnectionErr : jsError -> bool.
Variable res__ : string -> string.

Local Abbreviation run := (controller locals Error_ValidationError res__).
Local Abbreviation handler := (errorHandler Error_isHandled DbUtils_checkConnectionErr res__).
Local Abbreviation dispatch :=
  (to_error_handler Error_isHandled DbUtils_checkConnectionErr res__).
Local Abbreviation email_exists :=
  (Error_ValidationError
     [{| fe_param := "email"; fe_msg := res__ "VAL_ERRORS.USR_ACC_NEW_EMAIL_EXISTS" |}]).

(** X7: whatever the error, the handler sets the status once and then sends
    one envelope; it hands the error on to the next error middleware exactly
    when the error is neither handled nor a connection error, and then it is
    the same error, after the envelope. *)
Theorem handler_answers_once_and_forwards_unclassified (err : jsError) :
  exists code obj rest,
    handler err = res_status code :: res_send obj :: rest /\
    (rest = [] \/ rest = [next (Some err)]) /\
    (rest = [next (Some err)] <->
     classify Error_isHandled DbUtils_checkConnectionErr err = Unclassified).
Proof.
  unfold errorHandler, classify.
  destruct (Error_isHandled err); [|destruct (DbUtils_checkConnectionErr err)];
    do 3 eexists; (split; [reflexivity|]); split; auto;
    split; intros H; try discriminate H; reflexivity.
Qed.

Lemma handler_one_response (err : jsError) :
  length (filter is_response (handler err)) = 1.
Proof.
  unfold errorHandler.
  destruct (Error_isHandled err); [|destruct (DbUtils_checkConnectionErr err)];
    reflexivity.
Qed.

(** X6: a request that reaches the controller is answered exactly once,
    whatever the injected modules do: the controller never throws, and
    together with the error handler it sends one [res.json] or one
    [res.send], never both and never none. *)
Theorem registration_is_answered_exactly_once (params : Params.t) (s : Run W) :
  exists effects,
    fst (run params s) = Normal effects /\
    length (filter is_response (dispatch effects)) = 1.
Proof.
  destruct (controller_answers_once locals Error_ValidationError res__ params s)
    as (effect & s' & Hrun & [[payload ->]|[e ->]]);
    rewrite Hrun; cbn [fst]; eexists; (split; [reflexivity|]).
  - reflexivity.
  - unfold to_error_handler. cbn [flat_map]. rewrite app_nil_r.
    apply handler_one_response.
Qed.

(** X4: when the lookup by email fails with an error that the handler takes
    for a connection error, the client gets status 503 with the code
    [temporarily_unavailable], and the run has made no write. *)
Theorem unreachable_store_is_503_without_writes
  (params : Params.t) (s : Run W) (e : jsError) (w1 : W) :
  db_accounts_findOne locals (Params.email params) (world s) = (Throw e, w1) ->
  classify Error_isHandled DbUtils_checkConnectionErr e = Connectivity ->
  exists effects s',
    run params s = (Normal effects, s') /\
    dispatch effects =
      [res_status (Some 503%Z);
       res_send {| env_error := res__ "DEFAULT_ERRORS.TEMPORARILY_UNAVAILABLE";
                   env_error_code := Some "temporarily_unavailable";
                   env_errors := None |}] /\
    world s' = w1 /\
    writes (calls s') = writes (calls s).
Proof.
  intros Hfind Hclass.
  apply (classify_connectivity Error_isHandled DbUtils_checkConnectionErr) in Hclass.
  destruct Hclass as [Hh Hc].
  do 2 eexists. split.
  - async_unfold. async_step Hfind. reflexivity.
  - cbn [world calls]. repeat split.
    + unfold to_error_handler. cbn [flat_map asCallback]. rewrite app_nil_r.
      unfold errorHandler. now rewrite Hh, Hc.
    + rewrite writes_app. cbn. now rewrite app_nil_r.
Qed.

(** X5: when the lookup by email finds an account, and the validation error
    of the helpers is a handled error that carries the list it was built
    from, the client gets the status and the code of that error with the
    entry for [email] as the only element of [errors], and nothing is handed
    to the later error middlewares. *)
Theorem duplicate_email_reaches_client
  (params : Params.t) (s : Run W) (existing : Account.doc) (w1 : W) :
  db_accounts_findOne locals (Params.email params) (world s)
    = (Normal (Some existing), w1) ->
  Error_isHandled email_exists = true ->
  errors email_exists =
    Some [{| fe_param := "email";
             fe_msg := res__ "VAL_ERRORS.USR_ACC_NEW_EMAIL_EXISTS" |}] ->
  exists effects s' obj,
    run params s = (Normal effects, s') /\
    dispatch effects = [res_status (api_status email_exists); res_send obj] /\
    env_error_code obj = api_code email_exists /\
    env_errors obj =
      Some [{| fe_param := "email";
               fe_msg := res__ "VAL_ERRORS.USR_ACC_NEW_EMAIL_EXISTS" |}].
Proof.
  intros Hfind Hh He.
  do 3 eexists. split.
  - async_unfold. async_step Hfind. reflexivity.
  - unfold to_error_handler. cbn [flat_map asCallback]. rewrite app_nil_r.
    unfold errorHandler. rewrite Hh, He. cbn. repeat split.
Qed.

End ResponseFacts.

(** ** The schema, field by field *)

Lemma isEmpty_false (s : string) : isEmpty s = false <-> s <> "".
Proof. unfold isEmpty. apply String.eqb_neq. Qed.

Lemma isEmpty_true (s : string) : isEmpty s = true <-> s = "".
Proof. unfold isEmpty. apply String.eqb_eq. Qed.

Lemma map_constant_repeat {A B : Type} (b : B) (l : list A) :
  map (fun _ => b) l = repeat b (length l).
Proof. induction l as [|a l IH]; cbn; [reflexivity | now rewrite IH]. Qed.

Section SchemaFacts.

Variable req__ : string -> string.
Variables isInt isEmail : string -> bool.
Variable persist : bool.

Local Abbreviation check := (checkSchema req__ isInt isEmail persist).
Local Abbreviation before := (before_cnf_password req__ isInt isEmail persist).
Local Abbreviation errors_of := (chain_errors req__ isInt isEmail).

(** The errors of a request are those of the five chains that have
    validators, one chain after the other. *)
Lemma checkSchema_errors (body : Params.t) :
  snd (check body) =
  (errors_of first_name_schema body ++ errors_of contact_phone_schema body
   ++ errors_of email_schema body ++ errors_of password_schema body
   ++ errors_of cnf_password_schema (fst (before body)))%list.
Proof.
  destruct body as [fn ln ph em pw cf].
  unfold checkSchema, before_cnf_password, schema.
  destruct persist, ln; cbn; repeat rewrite <- app_assoc; reflexivity.
Qed.

Lemma chain_params (fs : FieldSchema) (b : Params.t) :
  map fe_param (errors_of fs b) =
  repeat (field_name (field fs)) (length (errors_of fs b)) /\
  length (errors_of fs b) <= length (validators fs).
Proof.
  unfold chain_errors. rewrite map_map, length_map. cbn [fe_param]. split.
  - apply map_constant_repeat.
  - apply filter_length_le.
Qed.

(** X9: the errors of a request come in the order of the schema: those on
    [first_name] (at most one), then [contact_phone] (at most two), [email]
    (at most two), [password] (at most one) and [cnf_password] (at most two);
    no error is ever reported on [last_name]. *)
Theorem errors_follow_the_schema (body : Params.t) :
  exists n1 n3 n4 n5 n6,
    n1 <= 1 /\ n3 <= 2 /\ n4 <= 2 /\ n5 <= 1 /\ n6 <= 2 /\
    map fe_param (snd (check body)) = error_params n1 n3 n4 n5 n6.
Proof.
  rewrite checkSchema_errors. repeat rewrite map_app.
  destruct (chain_params first_name_schema body) as [-> H1].
  destruct (chain_params contact_phone_schema body) as [-> H3].
  destruct (chain_params email_schema body) as [-> H4].
  destruct (chain_params password_schema body) as [-> H5].
  destruct (chain_params cnf_password_schema (fst (before body))) as [-> H6].
  exists (length (errors_of first_name_schema body)),
         (length (errors_of contact_phone_schema body)),
         (length (errors_of email_schema body)),
         (length (errors_of password_schema body)),
         (length (errors_of cnf_password_schema (fst (before body)))).
  repeat (split; [assumption|]). reflexivity.
Qed.

Lemma strict_eq_refl (a : option string) : Js.strict_eq a a = true.
Proof. destruct a as [x|]; cbn; [apply String.eqb_refl | reflexivity]. Qed.

Lemma required_chain_ok (b : Params.t) (f : Field) (key : string) :
  errors_of {| field := f; optional := false; trimmed := true;
               validators := [ {| validator := v_isEmpty; negated := true;
                                  errorMessage := key |} ] |} b = []
  <-> validated_value f b <> "".
Proof.
  unfold chain_errors, rejects, sanitized, validated_value. cbn.
  rewrite <- isEmpty_false.
  destruct (isEmpty _); cbn; split; intros H; try discriminate; reflexivity.
Qed.

Lemma app_nil_iff {A : Type} (l l' : list A) :
  (l ++ l')%list = [] <-> l = [] /\ l' = [].
Proof.
  split; [apply app_eq_nil | intros [-> ->]; reflexivity].
Qed.

Lemma first_name_chain_ok (b : Params.t) :
  errors_of first_name_schema b = [] <-> validated_value f_first_name b <> "".
Proof. apply required_chain_ok. Qed.

Lemma password_chain_ok (b : Params.t) :
  errors_of password_schema b = [] <-> validated_value f_password b <> "".
Proof. apply required_chain_ok. Qed.

Lemma contact_phone_chain_ok (b : Params.t) :
  errors_of contact_phone_schema b = []
  <-> validated_value f_contact_phone b <> "" /\
      isInt (validated_value f_contact_phone b) = true.
Proof.
  unfold chain_errors, rejects, sanitized, validated_value. cbn.
  rewrite <- isEmpty_false.
  destruct (isEmpty _), (isInt _); cbn; split; intros H;
    try discriminate; try (destruct H; discriminate); auto.
Qed.

Lemma email_chain_ok (b : Params.t) :
  errors_of email_schema b = []
  <-> validated_value f_email b <> "" /\
      isEmail (validated_value f_email b) = true.
Proof.
  unfold chain_errors, rejects, sanitized, validated_value. cbn.
  rewrite <- isEmpty_false.
  destruct (isEmpty _), (isEmail _); cbn; split; intros H;
    try discriminate; try (destruct H; discriminate); auto.
Qed.

Lemma custom_accepts (body : Params.t) :
  validated_value f_cnf_password body <> "" ->
  (cnf_password_custom (option_map trim (Params.cnf_password body)) (fst (before body))
     = true
   <-> password_read persist body = option_map trim (Params.cnf_password body)).
Proof.
  intros Hne. unfold cnf_password_custom. rewrite before_password.
  fold (password_read persist body). split.
  - intros H. apply andb_true_iff in H. now apply strict_eq_true.
  - intros ->. rewrite strict_eq_refl, andb_true_r.
    unfold validated_value in Hne. cbn [get_field] in Hne.
    destruct (option_map trim (Params.cnf_password body)) as [c|]; cbn in *.
    + unfold Js.truthy_string. apply negb_true_iff, String.eqb_neq, Hne.
    + now elim Hne.
Qed.

Lemma cnf_chain_ok (body : Params.t) :
  errors_of cnf_password_schema (fst (before body)) = []
  <-> validated_value f_cnf_password body <> "" /\
      password_read persist body = option_map trim (Params.cnf_password body).
Proof.
  pose proof (before_cnf req__ isInt isEmail persist body) as Hc.
  pose proof (custom_accepts body) as Hcustom.
  remember (fst (before body)) as b5 eqn:Hb5. clear Hb5.
  unfold chain_errors, rejects, sanitized. cbn. rewrite Hc.
  change (toString (option_map trim (Params.cnf_password body)))
    with (validated_value f_cnf_password body).
  rewrite <- isEmpty_false.
  destruct (isEmpty (validated_value f_cnf_password body)) eqn:E.
  - cbn. split; [discriminate | intros [H _]; now elim H].
  - apply isEmpty_false in E. rewrite <- (Hcustom E).
    destruct (cnf_password_custom _ _); cbn; split; intros H;
      try discriminate; try (destruct H; discriminate); auto.
Qed.

(** X8: the schema finds no error exactly when, once trimmed, the first
    name, the phone, the email, the password and the confirmation are not
    empty, the phone passes [isInt], the email passes [isEmail], and the
    password as the custom validator reads it is the trimmed
    confirmation. *)
Theorem validation_passes_iff (body : Params.t) :
  snd (check body) = [] <->
  validated_value f_first_name body <> "" /\
  (validated_value f_contact_phone body <> "" /\
   isInt (validated_value f_contact_phone body) = true) /\
  (validated_value f_email body <> "" /\
   isEmail (validated_value f_email body) = true) /\
  validated_value f_password body <> "" /\
  validated_value f_cnf_password body <> "" /\
  password_read persist body = option_map trim (Params.cnf_password body).
Proof.
  rewrite checkSchema_errors.
  pose proof (first_name_chain_ok body). pose proof (password_chain_ok body).
  pose proof (contact_phone_chain_ok body). pose proof (email_chain_ok body).
  pose proof (cnf_chain_ok body).
  pose proof (fun A => @app_nil_iff A) as Happ.
  split.
  - intros H4. apply Happ in H4. destruct H4 as [E1 H4].
    apply Happ in H4. destruct H4 as [E3 H4].
    apply Happ in H4. destruct H4 as [E4 H4].
    apply Happ in H4. destruct H4 as [E5 E6].
    tauto.
  - intros (C1 & C3 & C4 & C5 & C6).
    repeat (apply Happ; split); tauto.
Qed.

Lemma missing_is_reported (fs : FieldSchema) (key : string) (rest : list ValidatorCfg)
  (b : Params.t) :
  trimmed fs = true ->
  validators fs =
    {| validator := v_isEmpty; negated := true; errorMessage := key |} :: rest ->
  validated_value (field fs) b = "" ->
  In {| fe_param := field_name (field fs); fe_msg := req__ key |} (errors_of fs b).
Proof.
  intros Ht Hv Hblank. unfold chain_errors. rewrite Hv. cbn [filter].
  unfold rejects at 1. cbn [validator negated]. unfold sanitized. rewrite Ht.
  fold (validated_value (field fs) b). rewrite Hblank. cbn. now left.
Qed.

(** X10: a required field that is absent, empty or made of white space only
    is reported by the first validator of its chain, the one with the
    missing-field message, whatever else is wrong with the request. *)
Theorem blank_required_field_is_reported
  (body : Params.t) (fs : FieldSchema) (cfg : ValidatorCfg) (rest : list ValidatorCfg) :
  In fs schema ->
  validators fs = cfg :: rest ->
  validated_value (field fs) body = "" ->
  In {| fe_param := field_name (field fs); fe_msg := req__ (errorMessage cfg) |}
     (snd (check body)).
Proof.
  intros Hin Hv Hblank. rewrite checkSchema_errors.
  destruct Hin as [<-|[<-|[<-|[<-|[<-|[<-|[]]]]]]];
    cbn [validators first_name_schema last_name_schema contact_phone_schema
           email_schema password_schema cnf_password_schema] in Hv;
    inversion Hv; subst cfg rest; clear Hv; cbn [errorMessage].
  - apply in_or_app. left. now apply (missing_is_reported first_name_schema _ []).
  - apply in_or_app. right. apply in_or_app. left.
    now eapply (missing_is_reported contact_phone_schema).
  - do 2 (apply in_or_app; right). apply in_or_app. left.
    now eapply (missing_is_reported email_schema).
  - do 3 (apply in_or_app; right). apply in_or_app. left.
    now apply (missing_is_reported password_schema _ []).
  - do 4 (apply in_or_app; right).
    eapply (missing_is_reported cnf_password_schema); [reflexivity..|].
    unfold validated_value in *. cbn [field cnf_password_schema get_field] in *.
    now rewrite before_cnf.
Qed.

End SchemaFacts.

(** ** The bootstrap on any state of the connection *)

Lemma listeners_of_on (event event' : string) (l : Mongoose.Listener) (m : Mongoose.t) :
  Mongoose.listeners_of event (Mongoose.on event' l m) =
  (Mongoose.listeners_of event m ++ (if event' =? event then [l] else []))%list.
Proof.
  unfold Mongoose.listeners_of, Mongoose.on. cbn [Mongoose.listeners].
  rewrite filter_app, map_app. cbn [filter fst].
  now destruct (event' =? event).
Qed.

Lemma emit_calls_listeners (event : string) (arg : option jsError) (m : Mongoose.t)
  (ls : list Mongoose.Listener) (l : Mongoose.Listener) :
  Mongoose.listeners_of event m = (ls ++ [l])%list ->
  Mongoose.emit event arg m =
  (fst (Mongoose.call_listeners (ls ++ [l]) arg),
   Mongoose.ended (snd (Mongoose.call_listeners (ls ++ [l]) arg))).
Proof.
  intros H. unfold Mongoose.emit. rewrite H.
  destruct ls; cbn [app]; now destruct (Mongoose.call_listeners _ arg).
Qed.

(** Listeners called before one that throws what it is given: the emission
    ends with a throw, of the argument or of what an earlier one threw. *)
Lemma rethrowing_listener_is_last (ls : list Mongoose.Listener) (arg : option jsError) :
  exists logs v,
    Mongoose.call_listeners (ls ++ [Mongoose.on_error]) arg = (logs, Mongoose.throws v) /\
    (v = arg \/ exists l logs', In l ls /\ l arg = (logs', Mongoose.throws v)).
Proof.
  induction ls as [|l ls IH].
  - do 2 eexists. split; [reflexivity | now left].
  - cbn [app Mongoose.call_listeners].
    destruct (l arg) as [logs [|v]] eqn:El.
    + destruct IH as (logs' & v & -> & Hv).
      do 2 eexists. split; [reflexivity|].
      destruct Hv as [->|(l' & lg & Hin & Hl)]; [now left|].
      right. exists l', lg. split; [now right | exact Hl].
    + do 2 eexists. split; [reflexivity|].
      right. exists l, logs. split; [now left | exact El].
Qed.

Section BootstrapFacts.

Variable MONGO_DB_URI : option string.
Variable MONGO_DB_DEBUG : bool.
Variable connect : option string -> Mongoose.ConnectOptions -> Completion unit.

Local Abbreviation boot := (Mongoose.bootstrap MONGO_DB_URI MONGO_DB_DEBUG connect).

Lemma bootstrap_listeners (m : Mongoose.t) :
  Js.truthy MONGO_DB_URI = true ->
  Mongoose.listeners (fst (boot m)) =
  (Mongoose.listeners m ++
   [ ("connected", Mongoose.on_connected); ("disconnected", Mongoose.on_disconnected);
     ("reconnect", Mongoose.on_reconnect); ("error", Mongoose.on_error) ])%list.
Proof.
  intros Huri. unfold Mongoose.bootstrap. rewrite Huri. cbn [negb].
  destruct (connect MONGO_DB_URI _); cbn [fst Mongoose.listeners Mongoose.on];
    repeat rewrite <- app_assoc; reflexivity.
Qed.

(** X11: whatever listeners the connection had before the bootstrap, after
    it an ['error'] event ends the process: the emission throws, either the
    error of the event or what an earlier listener threw. *)
Theorem error_event_always_ends_the_process (m : Mongoose.t) (arg : option jsError) :
  Js.truthy MONGO_DB_URI = true ->
  exists logs v,
    Mongoose.after_emit "error" arg (fst (boot m)) = (logs, Mongoose.crashed v) /\
    (v = arg \/
     exists l logs',
       In l (Mongoose.listeners_of "error" m) /\ l arg = (logs', Mongoose.throws v)).
Proof.
  intros Huri.
  assert (Hls : Mongoose.listeners_of "error" (fst (boot m)) =
                (Mongoose.listeners_of "error" m ++ [Mongoose.on_error])%list).
  { unfold Mongoose.listeners_of. rewrite (bootstrap_listeners m Huri).
    rewrite filter_app, map_app. reflexivity. }
  destruct (rethrowing_listener_is_last (Mongoose.listeners_of "error" m) arg)
    as (logs & v & Hcall & Hv).
  exists logs, v. split; [|exact Hv].
  unfold Mongoose.after_emit.
  rewrite (emit_calls_listeners _ _ _ _ _ Hls), Hcall. reflexivity.
Qed.

(** X12: after the bootstrap of a fresh connection, the events [connected],
    [disconnected] and [reconnect] are logged with one line each and leave
    the process running; an event with any other name, ['error'] apart, is
    not logged at all. *)
Theorem lifecycle_events_are_only_logged (event : string) (arg : option jsError) :
  Js.truthy MONGO_DB_URI = true ->
  (In event lifecycle_events ->
   Mongoose.after_emit event arg (fst (boot Mongoose.fresh)) =
     ([Mongoose.Logger_info ("core.mongoose - connection - " ++ event)],
      Mongoose.running)) /\
  (~ In event lifecycle_events -> event <> "error" ->
   Mongoose.after_emit event arg (fst (boot Mongoose.fresh)) = ([], Mongoose.running)).
Proof.
  intros Huri.
  assert (Hls : Mongoose.listeners_of event (fst (boot Mongoose.fresh)) =
                map snd (filter (fun p => fst p =? event)
                  [ ("connected", Mongoose.on_connected);
                    ("disconnected", Mongoose.on_disconnected);
                    ("reconnect", Mongoose.on_reconnect);
                    ("error", Mongoose.on_error) ])).
  { unfold Mongoose.listeners_of. now rewrite (bootstrap_listeners _ Huri). }
  unfold Mongoose.after_emit, Mongoose.emit. rewrite Hls. split.
  - intros [<-|[<-|[<-|[]]]]; reflexivity.
  - intros Hnot Herr. cbn [filter fst].
    assert (E1 : ("connected" =? event) = false)
      by (apply String.eqb_neq; intros <-; apply Hnot; cbn; auto).
    assert (E2 : ("disconnected" =? event) = false)
      by (apply String.eqb_neq; intros <-; apply Hnot; cbn; auto).
    assert (E3 : ("reconnect" =? event) = false)
      by (apply String.eqb_neq; intros <-; apply Hnot; cbn; auto).
    assert (E4 : ("error" =? event) = false)
      by (apply String.eqb_neq; intros <-; now apply Herr).
    rewrite E1, E2, E3, E4. cbn [map].
    rewrite String.eqb_sym, E4. reflexivity.
Qed.

(** With a configured URI, the bootstrap ends as [mongoose.connect] ends,
    called with the URI and the options of the source: it resolves when the
    connection is made and rejects with the same error otherwise.  Either
    way command buffering has been turned off by then. *)
Lemma bootstrap_ends_as_connect_ends (m : Mongoose.t) :
  Js.truthy MONGO_DB_URI = true ->
  snd (boot m) = connect MONGO_DB_URI connect_options /\
  Mongoose.bufferCommands (fst (boot m)) = false /\
  Mongoose.connected_to (fst (boot m)) =
    match connect MONGO_DB_URI connect_options with
    | Normal _ => Some (MONGO_DB_URI, connect_options)
    | Throw _ => Mongoose.connected_to m
    end.
Proof.
  intros Huri. unfold Mongoose.bootstrap. rewrite Huri. cbn [negb].
  fold connect_options.
  destruct (connect MONGO_DB_URI connect_options) as [[]|e]; repeat split.
Qed.

End BootstrapFacts.

(** ** Objects, the request configuration and the headers *)

Section ObjFacts.

Context {V : Type}.

Lemma get_set_same (k : string) (v : V) (o : list (string * V)) :
  Obj.get k (Obj.set k v o) = Some v.
Proof.
  induction o as [|[k0 v0] o IH]; cbn.
  - now rewrite String.eqb_refl.
  - destruct (k0 =? k) eqn:E; cbn; [now rewrite String.eqb_refl | now rewrite E].
Qed.

Lemma get_set_other (k k' : string) (v : V) (o : list (string * V)) :
  k <> k' -> Obj.get k' (Obj.set k v o) = Obj.get k' o.
Proof.
  intros Hne. apply String.eqb_neq in Hne.
  induction o as [|[k0 v0] o IH]; cbn.
  - now rewrite Hne.
  - destruct (k0 =? k) eqn:E; cbn.
    + apply String.eqb_eq in E. subst k0. now rewrite Hne.
    + now rewrite IH.
Qed.

Lemma get_absent (k : string) (o : list (string * V)) :
  ~ In k (Obj.keys o) -> Obj.get k o = None.
Proof.
  induction o as [|[k0 v0] o IH]; cbn; [reflexivity|].
  intros Hnot. destruct (k0 =? k) eqn:E.
  - apply String.eqb_eq in E. elim Hnot. now left.
  - apply IH. intros Hin. apply Hnot. now right.
Qed.

(** After [_.assign(object, source)] a key reads as in [source] when
    [source] has it, and as in [object] otherwise. *)
Lemma get_assign (k : string) (object source : list (string * V)) :
  NoDup (Obj.keys source) ->
  Obj.get k (Obj.assign object source) =
  match Obj.get k source with
  | Some v => Some v
  | None => Obj.get k object
  end.
Proof.
  unfold Obj.assign. revert object.
  induction source as [|[k0 v0] source IH]; intros object Hnd; cbn; [reflexivity|].
  cbn in Hnd. inversion Hnd as [|? ? Hnot Hnd']; subst.
  rewrite (IH _ Hnd').
  destruct (k0 =? k) eqn:E.
  - apply String.eqb_eq in E. subst k0.
    rewrite (get_absent k source Hnot). apply get_set_same.
  - apply String.eqb_neq in E. now rewrite (get_set_other k0 k v0 object E).
Qed.

End ObjFacts.

Section RequestConfigFacts.

Context {V : Type}.
Variable of_string : string -> V.
Variable app_config : list (string * V).

(** X14: in the configuration stored for a request, every key of the
    configured [app] object has its configured value; [root] is
    [protocol://hostname] of the request only when the configuration has no
    [root]; no other key is there.  The middleware then calls [next()]
    without an error. *)
Theorem configured_values_take_precedence (protocol hostname k : string) :
  NoDup (Obj.keys app_config) ->
  Obj.get k (fst (requestConfig of_string app_config protocol hostname)) =
    match Obj.get k app_config with
    | Some v => Some v
    | None =>
        if "root" =? k then Some (of_string (protocol ++ "://" ++ hostname)) else None
    end /\
  snd (requestConfig of_string app_config protocol hostname) = [next None].
Proof.
  intros Hnd. unfold requestConfig. cbn [fst snd]. split; [|reflexivity].
  rewrite (get_assign k _ _ Hnd). reflexivity.
Qed.

End RequestConfigFacts.

Lemma access_control_names_lower :
  map toLowerCase
    [ "Access-Control-Allow-Origin"; "Access-Control-Allow-Methods";
      "Access-Control-Allow-Headers"; "Access-Control-Allow-Credentials" ]
  = access_control_names.
Proof. reflexivity. Qed.

(** X15: whatever headers the response had, after the middleware the four
    access-control headers have the values of the source, under any
    spelling of their names, every other header reads as before, and
    [next()] is called without an error. *)
Theorem access_control_headers_overwrite_and_keep_the_rest
  (headers : list (string * HeaderValue)) (name : string) :
  (toLowerCase name = "access-control-allow-origin" ->
   getHeader name (fst (accessControlHeaders headers)) = Some (header_string "*")) /\
  (toLowerCase name = "access-control-allow-methods" ->
   getHeader name (fst (accessControlHeaders headers))
     = Some (header_string "GET, POST, OPTIONS, PUT, PATCH, DELETE")) /\
  (toLowerCase name = "access-control-allow-headers" ->
   getHeader name (fst (accessControlHeaders headers))
     = Some (header_string "X-Requested-With,content-type, Accept")) /\
  (toLowerCase name = "access-control-allow-credentials" ->
   getHeader name (fst (accessControlHeaders headers)) = Some (header_bool true)) /\
  (~ In (toLowerCase name) access_control_names ->
   getHeader name (fst (accessControlHeaders headers)) = getHeader name headers) /\
  snd (accessControlHeaders headers) = [next None].
Proof.
  unfold accessControlHeaders, setHeader, getHeader. cbn [fst snd].
  change (toLowerCase "Access-Control-Allow-Origin") with "access-control-allow-origin".
  change (toLowerCase "Access-Control-Allow-Methods") with "access-control-allow-methods".
  change (toLowerCase "Access-Control-Allow-Headers") with "access-control-allow-headers".
  change (toLowerCase "Access-Control-Allow-Credentials")
    with "access-control-allow-credentials".
  repeat split.
  - intros ->.
    rewrite 3 get_set_other by (apply String.eqb_neq; reflexivity).
    apply get_set_same.
  - intros ->.
    rewrite 2 get_set_other by (apply String.eqb_neq; reflexivity).
    apply get_set_same.
  - intros ->.
    rewrite get_set_other by (apply String.eqb_neq; reflexivity).
    apply get_set_same.
  - intros ->. apply get_set_same.
  - intros Hnot. unfold access_control_names in Hnot. cbn [In] in Hnot.
    rewrite 4 get_set_other; [reflexivity|..]; intros E; apply Hnot; rewrite <- E; auto.
Qed.

(** ** The further properties at the sample data *)

Lemma success_means_both_created_witness :
  exists cred,
    writes (calls Fixture.after_ana_run) =
      [call_accounts_create (account_input Sample.ana cred);
       call_profile_create (profile_input Sample.ana Sample.ana_account)].
Proof.
  destruct (success_means_both_created
              MemStore.locals Sample.ValidationError Sample.i18n__ Sample.ana
              Fixture.start Fixture.after_ana_run
              [res_json {| account := Sample.ana_account;
                           profile := Sample.ana_profile |}]
              {| account := Sample.ana_account; profile := Sample.ana_profile |}
              eq_refl (or_introl eq_refl))
    as (w1 & cred & w2 & w3 & _ & _ & _ & _ & _ & Hwrites).
  exists cred. exact Hwrites.
Defined.

Lemma forwarded_error_comes_from_a_call_witness :
  (exists existing,
     db_accounts_findOne MemStore.locals (Params.email Sample.ana) Sample.profiles_down
       = (Normal (Some existing), Fixture.orphaned) /\
     Sample.connection_lost =
       Sample.ValidationError
         [{| fe_param := "email";
             fe_msg := Sample.i18n__ "VAL_ERRORS.USR_ACC_NEW_EMAIL_EXISTS" |}])
  \/ db_accounts_findOne MemStore.locals (Params.email Sample.ana) Sample.profiles_down
       = (Throw Sample.connection_lost, Fixture.orphaned)
  \/ (exists w,
        accounts_initPasswordHash MemStore.locals (Params.password Sample.ana) w
          = (Throw Sample.connection_lost, Fixture.orphaned))
  \/ (exists cred w,
        db_accounts_create MemStore.locals (account_input Sample.ana cred) w
          = (Throw Sample.connection_lost, Fixture.orphaned))
  \/ (exists acc w,
        db_profile_create MemStore.locals (profile_input Sample.ana acc) w
          = (Throw Sample.connection_lost, Fixture.orphaned)).
Proof.
  apply (forwarded_error_comes_from_a_call
           MemStore.locals Sample.ValidationError Sample.i18n__ Sample.ana
           {| world := Sample.profiles_down; calls := [] |} Fixture.orphaned_run
           [next (Some Sample.connection_lost)] Sample.connection_lost).
  - reflexivity.
  - now left.
Defined.

Lemma unreachable_store_is_503_without_writes_witness :
  exists effects s',
    controller Fixture.unreachable Sample.ValidationError Sample.i18n__ Sample.ana
      Fixture.start = (Normal effects, s') /\
    to_error_handler Sample.isHandled Sample.checkConnectionErr Sample.i18n__ effects =
      [res_status (Some 503%Z);
       res_send {| env_error := Sample.i18n__ "DEFAULT_ERRORS.TEMPORARILY_UNAVAILABLE";
                   env_error_code := Some "temporarily_unavailable";
                   env_errors := None |}] /\
    world s' = MemStore.empty /\
    writes (calls s') = writes (calls Fixture.start).
Proof.
  apply (unreachable_store_is_503_without_writes
           Fixture.unreachable Sample.ValidationError Sample.isHandled
           Sample.checkConnectionErr Sample.i18n__ Sample.ana Fixture.start
           Sample.connection_lost MemStore.empty);
    reflexivity.
Defined.

Lemma duplicate_email_reaches_client_witness :
  exists effects s' obj,
    controller MemStore.locals Sample.ValidationError Sample.i18n__ Sample.ana
      {| world := Sample.with_ana; calls := [] |} = (Normal effects, s') /\
    to_error_handler Sample.isHandled Sample.checkConnectionErr Sample.i18n__ effects =
      [res_status (Some 400%Z); res_send obj] /\
    env_error_code obj = Some "validation_error" /\
    env_errors obj = Some [Fixture.email_taken].
Proof.
  apply (duplicate_email_reaches_client
           MemStore.locals Sample.ValidationError Sample.isHandled
           Sample.checkConnectionErr Sample.i18n__ Sample.ana
           {| world := Sample.with_ana; calls := [] |}
           {| Account.id := "a";
              Account.fields :=
                {| Account.email := Some "ana@example.com";
                   Account.password := {| hash := "#s:old"; salt := "s" |} |} |}
           Sample.with_ana);
    reflexivity.
Defined.

Lemma blank_required_field_is_reported_witness :
  In {| fe_param := "first_name";
        fe_msg := "VAL_ERRORS.USR_ACC_NEW_MISSING_F_NAME" |}
     (snd (checkSchema Sample.i18n__ Sample.isInt Sample.isEmail false
             Fixture.blank_first_name)).
Proof.
  apply (blank_required_field_is_reported Sample.i18n__ Sample.isInt Sample.isEmail
           false Fixture.blank_first_name first_name_schema
           {| validator := v_isEmpty; negated := true;
              errorMessage := "VAL_ERRORS.USR_ACC_NEW_MISSING_F_NAME" |} []).
  - now left.
  - reflexivity.
  - reflexivity.
Defined.

Lemma error_event_always_ends_the_process_witness :
  exists logs v,
    Mongoose.after_emit "error" (Some Sample.connection_lost)
      (fst (Mongoose.bootstrap Fixture.mongo_uri false Fixture.connect_ok
              Fixture.with_listener))
    = (logs, Mongoose.crashed v) /\
    (v = Some Sample.connection_lost \/
     exists l logs',
       In l (Mongoose.listeners_of "error" Fixture.with_listener) /\
       l (Some Sample.connection_lost) = (logs', Mongoose.throws v)).
Proof.
  apply (error_event_always_ends_the_process Fixture.mongo_uri false Fixture.connect_ok
           Fixture.with_listener (Some Sample.connection_lost)).
  reflexivity.
Defined.

Lemma lifecycle_events_are_only_logged_witness :
  Mongoose.after_emit "reconnect" None
    (fst (Mongoose.bootstrap Fixture.mongo_uri false Fixture.connect_ok Mongoose.fresh))
  = ([Mongoose.Logger_info "core.mongoose - connection - reconnect"], Mongoose.running)
  /\
  Mongoose.after_emit "reconnected" None
    (fst (Mongoose.bootstrap Fixture.mongo_uri false Fixture.connect_ok Mongoose.fresh))
  = ([], Mongoose.running).
Proof.
  split.
  - apply (lifecycle_events_are_only_logged Fixture.mongo_uri false Fixture.connect_ok
             "reconnect" None eq_refl).
    cbn. auto.
  - apply (lifecycle_events_are_only_logged Fixture.mongo_uri false Fixture.connect_ok
             "reconnected" None eq_refl).
    + cbn. intros [H|[H|[H|[]]]]; discriminate H.
    + discriminate.
Defined.

Lemma configured_values_take_precedence_witness :
  Obj.get "root" (fst (requestConfig (fun s => s) Fixture.app_config "http" "localhost"))
    = Some "https://api.example.com" /\
  snd (requestConfig (fun s => s) Fixture.app_config "http" "localhost") = [next None].
Proof.
  apply (configured_values_take_precedence (fun s => s) Fixture.app_config
           "http" "localhost" "root").
  repeat constructor; cbn; intuition discriminate.
Defined.

(** A first name that is a no-break space is reported as missing, and a
    confirmation that ends with one is taken for the password, as with
    the plain space. *)
Lemma no_break_space_is_white_space :
  In {| fe_param := "first_name";
        fe_msg := "VAL_ERRORS.USR_ACC_NEW_MISSING_F_NAME" |}
     (snd (checkSchema Sample.i18n__ Sample.isInt Sample.isEmail false
             Fixture.no_break_first_name)) /\
  snd (checkSchema Sample.i18n__ Sample.isInt Sample.isEmail false
         Fixture.ana_trailing_no_break) = [].
Proof. split; [now left | reflexivity]. Qed.
